(** * Fixed-point peak finder: a shallow embedding of embedded-signal-peaks.c

    The C functions of [embedded-signal-peaks.c] are transcribed as Rocq
    functions over [Z].  Conventions:

    - an [int32_t] value is a [Z]; every signed operation on sample values
      is followed by its reduction to 32 bits ([wrap32]), i.e. the
      two's-complement result that the targeted compilers produce (ISO C
      leaves signed overflow undefined);
    - an array is a [list Z] read with [aget] and written with [aset];
      the array and its [length] argument are separate, as in C;
    - a pointer argument that may be [NULL] is an [option];
    - a [for] loop is a [Fixpoint] on a fuel argument that the caller sets
      to the exact trip count, the loop variable being carried in [Z];
    - loop counters and array indices stay inside [-1, length]; their
      arithmetic is written in [Z] without reduction. *)

From Stdlib Require Import ZArith List Lia Bool Sorted.
Import ListNotations.
Local Open Scope Z_scope.

(** ** Machine integers *)

Definition wrap (w z : Z) : Z := (z + 2 ^ (w - 1)) mod 2 ^ w - 2 ^ (w - 1).

Definition INT16_MAX : Z := 32767.
Definition INT16_MIN : Z := -32768.
Definition INT32_MAX : Z := 2147483647.
Definition INT32_MIN : Z := -2147483648.

Definition is_int16 (z : Z) : Prop := INT16_MIN <= z <= INT16_MAX.
Definition is_int32 (z : Z) : Prop := INT32_MIN <= z <= INT32_MAX.

Definition wrap32 : Z -> Z := wrap 32.
Definition sub32 (a b : Z) : Z := wrap32 (a - b).
Definition neg32 (a : Z) : Z := wrap32 (- a).

(** The width of [long] is the one type parameter the source leaves to
    the target: 32 bits on the ILP32 ABIs of microcontrollers (and on
    LLP64), 64 bits on LP64 hosts. *)
Inductive data_model : Set := ILP32 | LP64.

Definition long_bits (dm : data_model) : Z :=
  match dm with ILP32 => 32 | LP64 => 64 end.

(** ** Constants (lines 15-28) *)

Definition Q16_SHIFT : Z := 16.
Definition Q16_ONE : Z := Z.shiftl 1 Q16_SHIFT.
Definition Q16_HALF : Z := Z.shiftl 1 (Q16_SHIFT - 1).

Definition MAX_SIGNAL_LENGTH : Z := 512.
Definition MAX_PEAKS : Z := 32.

(** [(int32_t)(1.0f * Q16_ONE)], [(int32_t)(0.1f * Q16_ONE)] and
    [(int32_t)(10.0f * Q16_ONE)]: compile-time constants; the second one
    truncates 6553.6 to 6553. *)
Definition PROMINENCE_THRESHOLD_Q16 : Z := 65536.
Definition GRADIENT_THRESHOLD_Q16 : Z := 6553.
Definition NOISE_FLOOR_Q16 : Z := 655360.

Inductive PeakResultFP : Set :=
| PEAK_FP_OK
| PEAK_FP_NO_PEAK_FOUND
| PEAK_FP_INVALID_INPUT
| PEAK_FP_BUFFER_TOO_SMALL.

Definition PeakResultFP_eqb (a b : PeakResultFP) : bool :=
  match a, b with
  | PEAK_FP_OK, PEAK_FP_OK
  | PEAK_FP_NO_PEAK_FOUND, PEAK_FP_NO_PEAK_FOUND
  | PEAK_FP_INVALID_INPUT, PEAK_FP_INVALID_INPUT
  | PEAK_FP_BUFFER_TOO_SMALL, PEAK_FP_BUFFER_TOO_SMALL => true
  | _, _ => false
  end.

Record PeakConfigFP : Set := mkPeakConfigFP {
  prominence_threshold_q16 : Z;
  gradient_threshold_q16 : Z;
  noise_floor_q16 : Z
}.

Definition default_config_fp : PeakConfigFP :=
  mkPeakConfigFP PROMINENCE_THRESHOLD_Q16 GRADIENT_THRESHOLD_Q16 NOISE_FLOOR_Q16.

(** ** Arrays and output locations *)

(** [a[i]]; an index outside the list reads 0 (C leaves it undefined). *)
Definition aget (a : list Z) (i : Z) : Z :=
  if i <? 0 then 0 else nth (Z.to_nat i) a 0.

Fixpoint set_nth (n : nat) (v : Z) (a : list Z) : list Z :=
  match a, n with
  | [], _ => []
  | _ :: t, O => v :: t
  | h :: t, S n' => h :: set_nth n' v t
  end.

(** [a[i] = v]; a store outside the list is dropped (C leaves it
    undefined). *)
Definition aset (a : list Z) (i v : Z) : list Z :=
  if i <? 0 then a else set_nth (Z.to_nat i) v a.

(** The location behind an [int32_t *] output parameter: its current
    content and, as ghost state, the number of stores it has received. *)
Record cell : Set := mkCell { cell_val : Z; cell_stores : nat }.

Definition store (v : Z) (c : cell) : cell :=
  mkCell v (S (cell_stores c)).

(** The two file-scope scratch buffers (lines 52-53). *)
Record statics : Set := mkStatics {
  s_signal_q16 : list Z;
  s_peak_candidates : list Z
}.

(** ** Fixed-point conversion (lines 58-77) *)

Definition to_q16 (value : Z) : Z := wrap32 (Z.shiftl value Q16_SHIFT).

(** [value_q16 + Q16_HALF] is a [long] addition ([Q16_HALF] is [1L << 15]);
    the shifted sum is stored into the [int32_t rounded]. *)
Definition from_q16 (dm : data_model) (value_q16 : Z) : Z :=
  let rounded :=
    wrap32 (Z.shiftr (wrap (long_bits dm) (value_q16 + Q16_HALF)) Q16_SHIFT) in
  let rounded :=
    if rounded >? INT16_MAX then INT16_MAX
    else if rounded <? INT16_MIN then INT16_MIN
    else rounded in
  wrap 16 rounded.

(** ** Gradient (lines 90-108) *)

Definition compute_gradient_at (signal_q16 : list Z) (length index : Z) : Z :=
  if index =? 0 then
    sub32 (aget signal_q16 1) (aget signal_q16 0)
  else if index =? length - 1 then
    sub32 (aget signal_q16 (length - 1)) (aget signal_q16 (length - 2))
  else
    Z.shiftr (sub32 (aget signal_q16 (index + 1)) (aget signal_q16 (index - 1))) 1.

(** ** Topological prominence (lines 123-159) *)

(** [for (i = peak_idx - 1; i >= 0; i--)] *)
Fixpoint walk_left (fuel : nat) (signal_q16 : list Z)
  (peak_value i left_min : Z) : Z :=
  match fuel with
  | O => left_min
  | S fuel' =>
    if i >=? 0 then
      if aget signal_q16 i >=? peak_value then left_min
      else
        walk_left fuel' signal_q16 peak_value (i - 1)
          (if aget signal_q16 i <? left_min then aget signal_q16 i else left_min)
    else left_min
  end.

(** [for (i = peak_idx + 1; i < length; i++)] *)
Fixpoint walk_right (fuel : nat) (signal_q16 : list Z)
  (length peak_value i right_min : Z) : Z :=
  match fuel with
  | O => right_min
  | S fuel' =>
    if i <? length then
      if aget signal_q16 i >=? peak_value then right_min
      else
        walk_right fuel' signal_q16 length peak_value (i + 1)
          (if aget signal_q16 i <? right_min then aget signal_q16 i else right_min)
    else right_min
  end.

Definition calculate_topological_prominence (signal_q16 : list Z)
  (length peak_idx : Z) : Z :=
  let peak_value := aget signal_q16 peak_idx in
  let left_min :=
    walk_left (Z.to_nat peak_idx) signal_q16 peak_value (peak_idx - 1) peak_value in
  let right_min :=
    walk_right (Z.to_nat (length - (peak_idx + 1))) signal_q16 length
      peak_value (peak_idx + 1) peak_value in
  let ref_level := if left_min >? right_min then left_min else right_min in
  sub32 peak_value ref_level.

(** ** Candidate detection (lines 177-231) *)

(** The loop body's test, lines 208-217. *)
Definition peak_conditions (signal_q16 : list Z) (config : PeakConfigFP)
  (i grad_prev grad_curr : Z) : bool :=
  let is_zero_crossing := (grad_prev >? 0) && (grad_curr <=? 0) in
  let is_local_max :=
    (aget signal_q16 i >? aget signal_q16 (i - 1)) &&
    (aget signal_q16 i >? aget signal_q16 (i + 1)) in
  let above_noise := aget signal_q16 i >? noise_floor_q16 config in
  let grad_mag := if grad_prev >? 0 then grad_prev else neg32 grad_prev in
  let strong_gradient := grad_mag >=? gradient_threshold_q16 config in
  (is_zero_crossing || is_local_max) && above_noise && strong_gradient.

(** [for (i = 1; i < (length - 1); i++)], returning the candidate buffer
    and [count] at loop exit. *)
Fixpoint scan_loop (fuel : nat) (signal_q16 : list Z) (length : Z)
  (config : PeakConfigFP) (max_peaks : Z)
  (i grad_prev : Z) (peak_indices : list Z) (count : Z) : list Z * Z :=
  match fuel with
  | O => (peak_indices, count)
  | S fuel' =>
    if i <? length - 1 then
      let grad_curr := compute_gradient_at signal_q16 length i in
      if peak_conditions signal_q16 config i grad_prev grad_curr then
        if count <? max_peaks then
          scan_loop fuel' signal_q16 length config max_peaks (i + 1) grad_curr
            (aset peak_indices count i) (count + 1)
        else (peak_indices, count)
      else
        scan_loop fuel' signal_q16 length config max_peaks (i + 1) grad_curr
          peak_indices count
    else (peak_indices, count)
  end.

(** Returns the result code, the candidate buffer and [*num_peaks]. *)
Definition find_peak_candidates (signal_q16 : list Z) (length : Z)
  (config : PeakConfigFP) (peak_indices : list Z) (max_peaks : Z)
  : PeakResultFP * list Z * Z :=
  if length <? 3 then (PEAK_FP_BUFFER_TOO_SMALL, peak_indices, 0)
  else
    let grad_prev := compute_gradient_at signal_q16 length 0 in
    let '(peak_indices', count) :=
      scan_loop (Z.to_nat (length - 2)) signal_q16 length config max_peaks
        1 grad_prev peak_indices 0 in
    (PEAK_FP_OK, peak_indices', count).

(** ** Selection (lines 245-279) *)

(** [for (i = 0; i < num_peaks; i++)], returning [max_prominence] and
    [best_idx] at loop exit. *)
Fixpoint select_loop (fuel : nat) (signal_q16 : list Z) (length : Z)
  (peak_indices : list Z) (num_peaks : Z) (config : PeakConfigFP)
  (i max_prominence best_idx : Z) : Z * Z :=
  match fuel with
  | O => (max_prominence, best_idx)
  | S fuel' =>
    if i <? num_peaks then
      let idx := aget peak_indices i in
      let prominence := calculate_topological_prominence signal_q16 length idx in
      if (prominence >=? prominence_threshold_q16 config) &&
         (prominence >? max_prominence) then
        select_loop fuel' signal_q16 length peak_indices num_peaks config
          (i + 1) prominence idx
      else
        select_loop fuel' signal_q16 length peak_indices num_peaks config
          (i + 1) max_prominence best_idx
    else (max_prominence, best_idx)
  end.

(** Returns the result code and the two output locations
    ([best_prominence] may be [NULL]). *)
Definition select_prominent_peak (signal_q16 : list Z) (length : Z)
  (peak_indices : list Z) (num_peaks : Z) (config : PeakConfigFP)
  (best_peak_idx : cell) (best_prominence : option cell)
  : PeakResultFP * cell * option cell :=
  let '(max_prominence, best_idx) :=
    select_loop (Z.to_nat num_peaks) signal_q16 length peak_indices num_peaks
      config 0 INT32_MIN (-1) in
  if best_idx >=? 0 then
    (PEAK_FP_OK, store best_idx best_peak_idx,
     match best_prominence with
     | Some p => Some (store max_prominence p)
     | None => None
     end)
  else (PEAK_FP_NO_PEAK_FOUND, best_peak_idx, best_prominence).

(** ** Entry points (lines 292-396) *)

(** [for (i = 0; i < length; i++) buf[i] = to_q16(signal[i]);] *)
Fixpoint convert_loop (fuel : nat) (signal : list Z) (length i : Z)
  (buf : list Z) : list Z :=
  match fuel with
  | O => buf
  | S fuel' =>
    if i <? length then
      convert_loop fuel' signal length (i + 1)
        (aset buf i (to_q16 (aget signal i)))
    else buf
  end.

Definition find_prominent_peak_fp (signal : option (list Z)) (length : Z)
  (peak_index : option cell) (user_config : option PeakConfigFP)
  (st : statics) : PeakResultFP * option cell * statics :=
  match signal, peak_index with
  | Some sig, Some out =>
    if (length <=? 0) || (length >? MAX_SIGNAL_LENGTH) then
      (PEAK_FP_INVALID_INPUT, peak_index, st)
    else
      let config :=
        match user_config with Some c => c | None => default_config_fp end in
      let sq := convert_loop (Z.to_nat length) sig length 0 (s_signal_q16 st) in
      let '(result, pk, num_candidates) :=
        find_peak_candidates sq length config (s_peak_candidates st) MAX_PEAKS in
      let st' := mkStatics sq pk in
      if negb (PeakResultFP_eqb result PEAK_FP_OK) then
        (result, peak_index, st')
      else if num_candidates =? 0 then
        (PEAK_FP_NO_PEAK_FOUND, peak_index, st')
      else
        let '(result, out', _) :=
          select_prominent_peak sq length pk num_candidates config out None in
        (result, Some out', st')
  | _, _ => (PEAK_FP_INVALID_INPUT, peak_index, st)
  end.

Definition find_prominent_peak_fp_buffered (signal : option (list Z))
  (length : Z) (peak_index : option cell) (user_config : option PeakConfigFP)
  (signal_q16_buffer peaks_buffer : option (list Z))
  : PeakResultFP * option cell * option (list Z) * option (list Z) :=
  match signal, peak_index, signal_q16_buffer, peaks_buffer with
  | Some sig, Some out, Some sbuf, Some pbuf =>
    if (length <=? 0) || (length >? MAX_SIGNAL_LENGTH) then
      (PEAK_FP_INVALID_INPUT, peak_index, signal_q16_buffer, peaks_buffer)
    else
      let config :=
        match user_config with Some c => c | None => default_config_fp end in
      let sq := convert_loop (Z.to_nat length) sig length 0 sbuf in
      let '(result, pk, num_candidates) :=
        find_peak_candidates sq length config pbuf MAX_PEAKS in
      if negb (PeakResultFP_eqb result PEAK_FP_OK) then
        (result, peak_index, Some sq, Some pk)
      else if num_candidates =? 0 then
        (PEAK_FP_NO_PEAK_FOUND, peak_index, Some sq, Some pk)
      else
        let '(result, out', _) :=
          select_prominent_peak sq length pk num_candidates config out None in
        (result, Some out', Some sq, Some pk)
  | _, _, _, _ =>
    (PEAK_FP_INVALID_INPUT, peak_index, signal_q16_buffer, peaks_buffer)
  end.

(** ** The scenarios of the test suite, run on the model *)

Definition zeros (n : nat) : list Z := repeat 0 n.

Definition fresh_statics : statics := mkStatics (zeros 512) (zeros 32).

(** The observable part of a call on freshly zeroed statics: the result
    code and the content of [*peak_index] (initialised to -1 as in the
    tests). *)
Definition run (signal : list Z) (config : option PeakConfigFP)
  : PeakResultFP * Z :=
  let '(r, out, _) :=
    find_prominent_peak_fp (Some signal) (Z.of_nat (List.length signal))
      (Some (mkCell (-1) 0)) config fresh_statics in
  (r, match out with Some c => cell_val c | None => -1 end).

(** The relaxed configuration of the custom-configuration test:
    [(int32_t)(0.1f * Q16_ONE)], [(int32_t)(0.05f * Q16_ONE)] and
    [(int32_t)(5.0f * Q16_ONE)]. *)
Definition relaxed_config : PeakConfigFP := mkPeakConfigFP 6553 3276 327680.

(** ** Specification-side definitions *)

(** The rounded value that [from_q16] is after: [q / 2^16] to the
    nearest integer, halves upwards. *)
Definition round_q16 (q : Z) : Z := (q + 32768) / 65536.

Definition saturate16 (z : Z) : Z := Z.max INT16_MIN (Z.min INT16_MAX z).

(** The prominence rule in the words of the specification: on each side
    of the peak, the samples met before the first one that is at least as
    high as the peak, and the least of the peak value and those samples;
    the reference level is the greater of the two side minima. *)
Fixpoint below_peak_run (peak : Z) (l : list Z) : list Z :=
  match l with
  | [] => []
  | x :: t => if x <? peak then x :: below_peak_run peak t else []
  end.

Definition running_min (start : Z) (l : list Z) : Z := fold_left Z.min l start.

Definition left_side_minimum (signal : list Z) (p : nat) : Z :=
  let peak := nth p signal 0 in
  running_min peak (below_peak_run peak (rev (firstn p signal))).

Definition right_side_minimum (signal : list Z) (p : nat) : Z :=
  let peak := nth p signal 0 in
  running_min peak (below_peak_run peak (skipn (S p) signal)).

Definition reference_level (signal : list Z) (p : nat) : Z :=
  Z.max (left_side_minimum signal p) (right_side_minimum signal p).

(** Candidate detection in the words of the specification.  The gradient
    is a forward difference at index 0, a backward difference at the last
    index and half the central difference, rounded towards minus
    infinity, in between; differences are those of the 32-bit
    representation. *)
Definition gradient (signal : list Z) (L i : Z) : Z :=
  if i =? 0 then sub32 (aget signal 1) (aget signal 0)
  else if i =? L - 1 then sub32 (aget signal (L - 1)) (aget signal (L - 2))
  else sub32 (aget signal (i + 1)) (aget signal (i - 1)) / 2.

(** The absolute value as a 32-bit quantity. *)
Definition abs32 (g : Z) : Z := wrap32 (Z.abs g).

Definition zero_crossing (signal : list Z) (L i : Z) : bool :=
  (0 <? gradient signal L (i - 1)) && (gradient signal L i <=? 0).

Definition local_maximum (signal : list Z) (i : Z) : bool :=
  (aget signal (i - 1) <? aget signal i) && (aget signal (i + 1) <? aget signal i).

Definition is_candidate (signal : list Z) (L : Z) (config : PeakConfigFP)
  (i : Z) : bool :=
  (zero_crossing signal L i || local_maximum signal i)
  && (noise_floor_q16 config <? aget signal i)
  && (gradient_threshold_q16 config <=? abs32 (gradient signal L (i - 1))).

(** [zrange i n] is [i; i+1; ...; i+n-1]. *)
Fixpoint zrange (i : Z) (n : nat) : list Z :=
  match n with
  | O => []
  | S n' => i :: zrange (i + 1) n'
  end.

(** The indices 1 .. L-2, ascending. *)
Definition interior_indices (L : Z) : list Z := zrange 1 (Z.to_nat (L - 2)).

Definition all_candidates (signal : list Z) (L : Z) (config : PeakConfigFP)
  : list Z :=
  filter (is_candidate signal L config) (interior_indices L).

Definition expected_candidates (signal : list Z) (L : Z)
  (config : PeakConfigFP) (max_peaks : Z) : list Z :=
  firstn (Z.to_nat max_peaks) (all_candidates signal L config).

(** Selection in the words of the specification: position [k] of the
    candidate list holds a candidate that meets the threshold [t], no
    candidate meeting the threshold is more prominent, and no earlier one
    is as prominent. *)
Definition first_most_prominent (prom : Z -> Z) (t : Z) (cands : list Z)
  (k : nat) : Prop :=
  (k < length cands)%nat /\
  t <= prom (nth k cands 0) /\
  (forall j, (j < length cands)%nat -> t <= prom (nth j cands 0) ->
             prom (nth j cands 0) <= prom (nth k cands 0)) /\
  (forall j, (j < k)%nat -> t <= prom (nth j cands 0) ->
             prom (nth j cands 0) < prom (nth k cands 0)).

(** The threshold test of line 263. *)
Definition meets_threshold (signal_q16 : list Z) (length : Z)
  (config : PeakConfigFP) (idx : Z) : bool :=
  calculate_topological_prominence signal_q16 length idx
    >=? prominence_threshold_q16 config.

(** The candidates that selection accepts: those passing the threshold
    test. *)
Definition accepted (signal_q16 : list Z) (length : Z) (config : PeakConfigFP)
  (cands : list Z) : list Z :=
  filter (meets_threshold signal_q16 length config) cands.

(** One iteration of the selection loop on the pair
    [(max_prominence, best_idx)]. *)
Definition select_step (prom : Z -> Z) (t : Z) (st : Z * Z) (idx : Z) : Z * Z :=
  if (prom idx >=? t) && (prom idx >? fst st) then (prom idx, idx) else st.

(** Two arrays hold the same first [L] elements. *)
Definition agree (L : Z) (a b : list Z) : Prop :=
  forall j, 0 <= j < L -> aget a j = aget b j.

(** Detection as a function of the converted signal alone: the expected
    candidates, then the selection loop over them; [None] stands for
    "no peak found". *)
Definition detect (sq : list Z) (L : Z) (config : PeakConfigFP) : option Z :=
  let cands := expected_candidates sq L config MAX_PEAKS in
  let st :=
    fold_left
      (select_step (calculate_topological_prominence sq L)
                   (prominence_threshold_q16 config))
      cands (INT32_MIN, -1) in
  if snd st >=? 0 then Some (snd st) else None.

(** What a caller observes of a call: the result code and the content of
    [*peak_index]. *)
Definition outcome_fp (r : PeakResultFP * option cell * statics)
  : PeakResultFP * option cell := fst r.

Definition outcome_buffered
  (r : PeakResultFP * option cell * option (list Z) * option (list Z))
  : PeakResultFP * option cell := fst (fst r).

(** The declared sizes of the static buffers. *)
Definition statics_sized (st : statics) : Prop :=
  Z.of_nat (length (s_signal_q16 st)) = MAX_SIGNAL_LENGTH /\
  Z.of_nat (length (s_peak_candidates st)) = MAX_PEAKS.

(** [config = (user_config != NULL) ? user_config : &default_config_fp] *)
Definition effective_config (user_config : option PeakConfigFP) : PeakConfigFP :=
  match user_config with Some c => c | None => default_config_fp end.

(** The outcome that corresponds to a detection result. *)
Definition outcome_of (d : option Z) (out : cell) : PeakResultFP * option cell :=
  match d with
  | Some best => (PEAK_FP_OK, Some (store best out))
  | None => (PEAK_FP_NO_PEAK_FOUND, Some out)
  end.

(** ** The diagnostic helper (lines 406-426) *)

(** The fixed-point value [prominence_q16] that [get_peak_prominence_float]
    converts to [float] and divides by [Q16_ONE]; its early [return 0.0f]
    is the value 0.  The signal pointer is not checked; the conversion
    loop writes the static signal buffer. *)
Definition get_peak_prominence_q16 (signal : list Z) (length peak_index : Z)
  (st : statics) : Z * statics :=
  if (length <=? 0) || (length >? MAX_SIGNAL_LENGTH) ||
     (peak_index <? 0) || (peak_index >=? length) then (0, st)
  else
    let sq := convert_loop (Z.to_nat length) signal length 0 (s_signal_q16 st) in
    (calculate_topological_prominence sq length peak_index,
     mkStatics sq (s_peak_candidates st)).

(** The candidate rule with the differences taken exactly and the
    absolute value that of the integers, as the specification words
    them. *)
Definition exact_gradient (signal : list Z) (L i : Z) : Z :=
  if i =? 0 then aget signal 1 - aget signal 0
  else if i =? L - 1 then aget signal (L - 1) - aget signal (L - 2)
  else (aget signal (i + 1) - aget signal (i - 1)) / 2.

Definition is_candidate_exact (signal : list Z) (L : Z) (config : PeakConfigFP)
  (i : Z) : bool :=
  ((0 <? exact_gradient signal L (i - 1)) && (exact_gradient signal L i <=? 0)
   || local_maximum signal i)
  && (noise_floor_q16 config <? aget signal i)
  && (gradient_threshold_q16 config <=? Z.abs (exact_gradient signal L (i - 1))).

Definition exact_candidates (signal : list Z) (L : Z) (config : PeakConfigFP)
  (max_peaks : Z) : list Z :=
  firstn (Z.to_nat max_peaks)
    (filter (is_candidate_exact signal L config) (interior_indices L)).

(** * Properties *)

(** ** The scenarios of the test suite *)

Example scenario_A :
  run [10;30;50;70;90;70;50;30;10] None = (PEAK_FP_OK, 4).
Proof. vm_compute. reflexivity. Qed.

Example scenario_B :
  run [10;40;70;80;60;40;70;100;50;20] None = (PEAK_FP_OK, 7).
Proof. vm_compute. reflexivity. Qed.

Example scenario_C :
  run [0;10;5;20;5;15;0] None = (PEAK_FP_OK, 3).
Proof. vm_compute. reflexivity. Qed.

Example scenario_D :
  run [50;50;50;50;50] None = (PEAK_FP_NO_PEAK_FOUND, -1).
Proof. vm_compute. reflexivity. Qed.

Example scenario_E :
  run [10;20] None = (PEAK_FP_BUFFER_TOO_SMALL, -1).
Proof. vm_compute. reflexivity. Qed.



Example scenario_F_relaxed :
  run [10;15;20;25;20;15;10] (Some relaxed_config) = (PEAK_FP_OK, 3).
Proof. vm_compute. reflexivity. Qed.

(** With the default configuration the same signal also yields the peak
    at index 3: its prominence is 15 units, above the threshold of 1. *)
Example scenario_F_default :
  run [10;15;20;25;20;15;10] None = (PEAK_FP_OK, 3) /\
  calculate_topological_prominence (map to_q16 [10;15;20;25;20;15;10]) 7 3 =
    to_q16 15.
Proof. split; vm_compute; reflexivity. Qed.

(** A maximum at the first sample is outside the scanned range 1 .. L-2. *)
Example peak_at_start_not_detected :
  run [100;80;60;40;20] None = (PEAK_FP_NO_PEAK_FOUND, -1).
Proof. vm_compute. reflexivity. Qed.

(** ** Machine-integer facts *)

Lemma wrap32_id (z : Z) : is_int32 z -> wrap32 z = z.
Proof.
  unfold is_int32, INT32_MIN, INT32_MAX, wrap32, wrap. intros H.
  change (2 ^ (32 - 1)) with 2147483648. change (2 ^ 32) with 4294967296.
  rewrite Z.mod_small by lia. lia.
Qed.

Lemma wrap32_range (z : Z) : is_int32 (wrap32 z).
Proof.
  unfold is_int32, INT32_MIN, INT32_MAX, wrap32, wrap.
  change (2 ^ (32 - 1)) with 2147483648. change (2 ^ 32) with 4294967296.
  pose proof (Z.mod_pos_bound (z + 2147483648) 4294967296 eq_refl). lia.
Qed.

Lemma sub32_exact (a b : Z) : is_int32 (a - b) -> sub32 a b = a - b.
Proof. apply wrap32_id. Qed.

Lemma neg32_exact (a : Z) : is_int32 (- a) -> neg32 a = - a.
Proof. apply wrap32_id. Qed.

Lemma to_q16_exact (x : Z) : is_int16 x -> to_q16 x = x * 65536.
Proof.
  unfold is_int16, INT16_MIN, INT16_MAX, to_q16, Q16_SHIFT. intros H.
  rewrite Z.shiftl_mul_pow2 by lia. change (2 ^ 16) with 65536.
  apply wrap32_id. unfold is_int32, INT32_MIN, INT32_MAX. lia.
Qed.


Lemma from_q16_when_sum_fits (dm : data_model) (q : Z) :
  is_int32 q -> q + Q16_HALF <= 2 ^ (long_bits dm - 1) - 1 ->
  from_q16 dm q = saturate16 (round_q16 q).
Proof.
  unfold is_int32, INT32_MIN, INT32_MAX. intros Hq Hfit.
  assert (Hw : wrap (long_bits dm) (q + Q16_HALF) = q + 32768).
  { unfold wrap. change Q16_HALF with 32768 in *.
    destruct dm; cbn [long_bits] in *.
    - change (2 ^ (32 - 1)) with 2147483648 in *.
      change (2 ^ 32) with 4294967296.
      rewrite Z.mod_small by lia. lia.
    - change (2 ^ (64 - 1)) with 9223372036854775808 in *.
      change (2 ^ 64) with 18446744073709551616.
      rewrite Z.mod_small by lia. lia. }
  unfold from_q16. rewrite Hw. unfold Q16_SHIFT.
  rewrite Z.shiftr_div_pow2 by lia. change (2 ^ 16) with 65536.
  fold (round_q16 q).
  assert (Hr : -32768 <= round_q16 q <= 32768).
  { unfold round_q16. split.
    - apply Z.div_le_lower_bound; lia.
    - enough ((q + 32768) / 65536 < 32769) by lia.
      apply Z.div_lt_upper_bound; lia. }
  rewrite wrap32_id by (unfold is_int32, INT32_MIN, INT32_MAX; lia).
  unfold saturate16, INT16_MAX, INT16_MIN.
  destruct (Z.gtb_spec (round_q16 q) 32767) as [Hgt | Hle].
  - vm_compute (wrap 16 32767). lia.
  - destruct (Z.ltb_spec (round_q16 q) (-32768)) as [Hlt | Hge]; [lia |].
    unfold wrap. change (2 ^ (16 - 1)) with 32768. change (2 ^ 16) with 65536.
    rewrite Z.mod_small by lia. lia.
Qed.

(** Round trip: on every target, [from_q16 (to_q16 x) = x] for an
    [int16_t] sample [x]. *)
Lemma from_q16_to_q16 (dm : data_model) (x : Z) :
  is_int16 x -> from_q16 dm (to_q16 x) = x.
Proof.
  intros Hx. rewrite to_q16_exact by exact Hx.
  unfold is_int16, INT16_MIN, INT16_MAX in Hx.
  rewrite from_q16_when_sum_fits.
  - unfold saturate16, round_q16, INT16_MIN, INT16_MAX.
    replace (x * 65536 + 32768) with (32768 + x * 65536) by lia.
    rewrite Z.div_add by lia. change (32768 / 65536) with 0. lia.
  - unfold is_int32, INT32_MIN, INT32_MAX. lia.
  - change Q16_HALF with 32768.
    destruct dm; cbn [long_bits].
    + change (2 ^ (32 - 1)) with 2147483648. lia.
    + change (2 ^ (64 - 1)) with 9223372036854775808. lia.
Qed.

(** Where [long] has 64 bits the sum cannot overflow and every 32-bit
    input saturates. *)
Lemma from_q16_LP64_saturates (q : Z) :
  is_int32 q -> from_q16 LP64 q = saturate16 (round_q16 q).
Proof.
  intros Hq. apply from_q16_when_sum_fits; [exact Hq |].
  unfold is_int32, INT32_MIN, INT32_MAX in Hq. change Q16_HALF with 32768.
  cbn [long_bits]. change (2 ^ (64 - 1)) with 9223372036854775808. lia.
Qed.

Lemma from_q16_to_q16_witness :
  is_int16 (-32768) /\ from_q16 ILP32 (to_q16 (-32768)) = -32768.
Proof.
  assert (H : is_int16 (-32768)) by (unfold is_int16; vm_compute; split; discriminate).
  split; [exact H | exact (from_q16_to_q16 ILP32 (-32768) H)].
Defined.

Lemma from_q16_LP64_saturates_witness :
  is_int32 INT32_MAX /\ from_q16 LP64 INT32_MAX = saturate16 32768.
Proof.
  assert (H : is_int32 INT32_MAX) by (unfold is_int32; vm_compute; split; discriminate).
  split; [exact H | exact (from_q16_LP64_saturates INT32_MAX H)].
Defined.

(** With a 32-bit [long], the whole top half-unit of the int32_t range
    wraps to INT16_MIN. *)
Lemma from_q16_ILP32_wraps (q : Z) :
  INT32_MAX - 32767 <= q <= INT32_MAX -> from_q16 ILP32 q = INT16_MIN.
Proof.
  unfold INT32_MAX. intros Hq. unfold from_q16. cbn [long_bits].
  assert (Hw : wrap 32 (q + Q16_HALF) = q + 32768 - 4294967296).
  { unfold wrap. change Q16_HALF with 32768.
    change (2 ^ (32 - 1)) with 2147483648. change (2 ^ 32) with 4294967296.
    replace (q + 32768 + 2147483648)
      with (q + 32768 - 2147483648 + 1 * 4294967296) by lia.
    rewrite Z.mod_add by lia. rewrite Z.mod_small by lia. lia. }
  rewrite Hw. unfold Q16_SHIFT. rewrite Z.shiftr_div_pow2 by lia.
  change (2 ^ 16) with 65536.
  assert (Hd : (q + 32768 - 4294967296) / 65536 = -32768).
  { symmetry. apply (Z.div_unique _ _ _ (q + 32768 - 2147483648)); lia. }
  rewrite Hd. vm_compute. reflexivity.
Qed.

(** C2: on a target whose [long] has 32 bits, [from_q16] of INT32_MAX adds
    the rounding bias past INT32_MAX: the rounded value 32768 lies above
    the int16_t range, yet the result is INT16_MIN (wrap-around) instead
    of the saturated INT16_MAX, which the same input yields where [long]
    has 64 bits. *)
Theorem from_q16_wraps_near_INT32_MAX :
  round_q16 INT32_MAX = 32768 /\
  from_q16 ILP32 INT32_MAX = INT16_MIN /\
  from_q16 LP64 INT32_MAX = INT16_MAX.
Proof. repeat split; vm_compute; reflexivity. Qed.

(** ** Arrays *)

Lemma aget_nth (a : list Z) (n : nat) : aget a (Z.of_nat n) = nth n a 0.
Proof.
  unfold aget. destruct (Z.ltb_spec (Z.of_nat n) 0); [lia |].
  now rewrite Nat2Z.id.
Qed.

Lemma firstn_snoc (a : list Z) (n : nat) :
  (n < length a)%nat -> firstn (S n) a = firstn n a ++ [nth n a 0].
Proof.
  revert n. induction a as [| h t IH]; intros n Hn; simpl in Hn; [lia |].
  destruct n as [| n]; [reflexivity |].
  change (firstn (S (S n)) (h :: t)) with (h :: firstn (S n) t).
  rewrite IH by lia. reflexivity.
Qed.

Lemma skipn_cons_nth (a : list Z) (n : nat) :
  (n < length a)%nat -> skipn n a = nth n a 0 :: skipn (S n) a.
Proof.
  revert n. induction a as [| h t IH]; intros n Hn; simpl in Hn; [lia |].
  destruct n as [| n]; [reflexivity |].
  change (skipn (S n) (h :: t)) with (skipn n t). rewrite IH by lia.
  reflexivity.
Qed.

(** ** Topological prominence *)

Ltac cmp :=
  repeat match goal with
  | |- context [?a >=? ?b] => rewrite (Z.geb_leb a b)
  | |- context [?a >? ?b] => rewrite (Z.gtb_ltb a b)
  | H : context [?a >=? ?b] |- _ => rewrite (Z.geb_leb a b) in H
  | H : context [?a >? ?b] |- _ => rewrite (Z.gtb_ltb a b) in H
  end.

Lemma select_min (x m : Z) : (if x <? m then x else m) = Z.min m x.
Proof. destruct (Z.ltb_spec x m); lia. Qed.

Lemma select_max (l r : Z) : (if l >? r then l else r) = Z.max l r.
Proof. cmp. destruct (Z.ltb_spec r l); lia. Qed.

Section Walks.

Variable signal : list Z.
Variable peak : Z.

Lemma walk_left_spec (n : nat) : forall m,
  (n <= length signal)%nat ->
  walk_left n signal peak (Z.of_nat n - 1) m =
  running_min m (below_peak_run peak (rev (firstn n signal))).
Proof.
  induction n as [| n IH]; intros m Hn; [reflexivity |].
  rewrite firstn_snoc, rev_app_distr by lia.
  replace (Z.of_nat (S n) - 1) with (Z.of_nat n) by lia.
  cbn [walk_left rev app below_peak_run].
  destruct (Z.geb_spec (Z.of_nat n) 0) as [_ | Hneg]; [| lia].
  rewrite aget_nth. cmp.
  destruct (Z.leb_spec peak (nth n signal 0)) as [Hge | Hlt].
  - destruct (Z.ltb_spec (nth n signal 0) peak); [lia | reflexivity].
  - destruct (Z.ltb_spec (nth n signal 0) peak); [| lia].
    rewrite IH by lia. rewrite select_min. reflexivity.
Qed.

Lemma walk_right_spec (fuel : nat) : forall (i : nat) m,
  (i + fuel = length signal)%nat ->
  walk_right fuel signal (Z.of_nat (length signal)) peak (Z.of_nat i) m =
  running_min m (below_peak_run peak (skipn i signal)).
Proof.
  induction fuel as [| fuel IH]; intros i m Hi.
  - rewrite skipn_all2 by lia. reflexivity.
  - rewrite (skipn_cons_nth signal i) by lia.
    cbn [walk_right below_peak_run].
    destruct (Z.ltb_spec (Z.of_nat i) (Z.of_nat (length signal))); [| lia].
    rewrite aget_nth. cmp.
    destruct (Z.leb_spec peak (nth i signal 0)) as [Hge | Hlt].
    + destruct (Z.ltb_spec (nth i signal 0) peak); [lia | reflexivity].
    + destruct (Z.ltb_spec (nth i signal 0) peak); [| lia].
      replace (Z.of_nat i + 1) with (Z.of_nat (S i)) by lia.
      rewrite IH by lia. rewrite select_min. reflexivity.
Qed.

Lemma running_min_le_start (l : list Z) : forall m, running_min m l <= m.
Proof.
  unfold running_min. induction l as [| x t IH]; intros m; simpl; [lia |].
  specialize (IH (Z.min m x)). lia.
Qed.

End Walks.

Lemma prominence_unfold (signal : list Z) (p : nat) :
  (p < length signal)%nat ->
  calculate_topological_prominence signal (Z.of_nat (length signal)) (Z.of_nat p) =
  sub32 (nth p signal 0) (reference_level signal p).
Proof.
  intros Hp. unfold calculate_topological_prominence.
  rewrite aget_nth, Nat2Z.id, walk_left_spec by lia.
  replace (Z.of_nat p + 1) with (Z.of_nat (S p)) by lia.
  rewrite walk_right_spec by lia.
  rewrite select_max. reflexivity.
Qed.

Lemma reference_level_le_peak (signal : list Z) (p : nat) :
  reference_level signal p <= nth p signal 0.
Proof.
  unfold reference_level, left_side_minimum, right_side_minimum.
  apply Z.max_lub; apply running_min_le_start.
Qed.

(** At every valid peak index the prominence is the 32-bit reduction of
    the peak value minus the reference level, and the exact difference
    whenever that difference is at most INT32_MAX; the reference level is
    the greater of the two side minima, each taken over the samples met
    before the first one at or above the peak; on the signal
    [0,10,5,20,5,15,0] the prominence at index 3 is 20 << 16. *)
Theorem prominence_is_peak_minus_greater_side_minimum :
  forall (signal : list Z) (peak_idx : nat),
    (peak_idx < length signal)%nat ->
    let prominence :=
      calculate_topological_prominence signal (Z.of_nat (length signal))
        (Z.of_nat peak_idx) in
    let peak_value := nth peak_idx signal 0 in
    prominence = sub32 peak_value (reference_level signal peak_idx) /\
    (peak_value - reference_level signal peak_idx <= INT32_MAX ->
     prominence = peak_value - reference_level signal peak_idx) /\
    calculate_topological_prominence (map to_q16 [0;10;5;20;5;15;0]) 7 3 =
      Z.shiftl 20 16.
Proof.
  intros signal peak_idx Hp prominence peak_value. subst prominence peak_value.
  rewrite prominence_unfold by exact Hp.
  split; [reflexivity |]. split; [| vm_compute; reflexivity].
  intros Hfit. apply sub32_exact.
  pose proof (reference_level_le_peak signal peak_idx).
  unfold is_int32, INT32_MIN, INT32_MAX in *. lia.
Qed.

Lemma prominence_is_peak_minus_greater_side_minimum_witness :
  let signal := map to_q16 [10;40;70;80;60;40;70;100;50;20] in
  (3 < length signal)%nat /\
  left_side_minimum signal 3 = to_q16 10 /\
  right_side_minimum signal 3 = to_q16 40 /\
  calculate_topological_prominence signal 10 3 = to_q16 40.
Proof.
  intros signal.
  assert (H : (3 < length signal)%nat) by (vm_compute; lia).
  split; [exact H |].
  destruct (prominence_is_peak_minus_greater_side_minimum signal 3 H)
    as [E _].
  split; [vm_compute; reflexivity |]. split; [vm_compute; reflexivity |].
  etransitivity; [exact E |]. vm_compute. reflexivity.
Defined.

(** C1: on the int16_t samples [-20000, 20000, -20000] the reference
    level at index 1 is the greater of the two side minima, -20000 units,
    and the peak value minus the reference level is 40000 units; the
    32-bit subtraction returns -1673527296 instead.  On the signal
    [0,10,5,20,5,15,0] the prominence at index 3 is 20 << 16. *)
Theorem prominence_is_not_the_difference_on_wide_swing :
  let signal_q16 := map to_q16 [-20000; 20000; -20000] in
  left_side_minimum signal_q16 1 = to_q16 (-20000) /\
  right_side_minimum signal_q16 1 = to_q16 (-20000) /\
  nth 1 signal_q16 0 - reference_level signal_q16 1 = 40000 * 65536 /\
  calculate_topological_prominence signal_q16 3 1 = -1673527296 /\
  calculate_topological_prominence (map to_q16 [0;10;5;20;5;15;0]) 7 3 =
    Z.shiftl 20 16.
Proof. repeat split; vm_compute; reflexivity. Qed.

Lemma running_min_lower_bound (lo : Z) (l : list Z) : forall m,
  lo <= m -> Forall (fun v => lo <= v) l -> lo <= running_min m l.
Proof.
  unfold running_min. induction l as [| x t IH]; intros m Hm Hl; simpl; [lia |].
  inversion Hl; subst. apply IH; [lia | assumption].
Qed.

Lemma below_peak_run_Forall (P : Z -> Prop) (peak : Z) (l : list Z) :
  Forall P l -> Forall P (below_peak_run peak l).
Proof.
  induction 1 as [| x t Hx Ht IH]; simpl; [constructor |].
  destruct (x <? peak); constructor; assumption.
Qed.

Lemma Forall_firstn_Z (P : Z -> Prop) (n : nat) (l : list Z) :
  Forall P l -> Forall P (firstn n l).
Proof.
  intros H. rewrite <- (firstn_skipn n l) in H.
  apply Forall_app in H. tauto.
Qed.

Lemma reference_level_lower_bound (lo : Z) (signal : list Z) (p : nat) :
  (p < length signal)%nat -> Forall (fun v => lo <= v) signal ->
  lo <= reference_level signal p.
Proof.
  intros Hp Hall.
  assert (Hpk : lo <= nth p signal 0).
  { rewrite Forall_forall in Hall. apply Hall, nth_In, Hp. }
  unfold reference_level, left_side_minimum.
  apply Z.max_le_iff. left.
  apply running_min_lower_bound; [exact Hpk |].
  apply below_peak_run_Forall, Forall_rev, Forall_firstn_Z, Hall.
Qed.

(** Where the samples span less than 2^31 the subtraction is exact and
    the prominence is not negative. *)
Lemma prominence_nonneg_in_window (lo hi : Z) (signal : list Z) (p : nat) :
  (p < length signal)%nat ->
  Forall (fun v => lo <= v <= hi) signal ->
  hi - lo <= INT32_MAX ->
  let prominence :=
    calculate_topological_prominence signal (Z.of_nat (length signal))
      (Z.of_nat p) in
  prominence = nth p signal 0 - reference_level signal p /\ 0 <= prominence.
Proof.
  intros Hp Hall Hspan prominence. subst prominence.
  rewrite prominence_unfold by exact Hp.
  pose proof (reference_level_le_peak signal p) as Hle.
  assert (Hlo : lo <= reference_level signal p).
  { apply reference_level_lower_bound; [exact Hp |].
    eapply Forall_impl; [| exact Hall]. cbv beta. intros; lia. }
  assert (Hhi : nth p signal 0 <= hi).
  { rewrite Forall_forall in Hall. apply (Hall _ (nth_In signal 0 Hp)). }
  rewrite sub32_exact; [lia |].
  unfold is_int32, INT32_MIN, INT32_MAX in *. lia.
Qed.

Lemma prominence_nonneg_in_window_witness :
  let signal := map to_q16 [0;10;5;20;5;15;0] in
  0 <= calculate_topological_prominence signal 7 3.
Proof.
  intros signal.
  refine (proj2 (prominence_nonneg_in_window 0 (to_q16 20) signal 3 _ _ _)).
  - vm_compute. lia.
  - repeat constructor; vm_compute; discriminate.
  - vm_compute. discriminate.
Defined.

(** C9: for the int16_t samples [-20000, 20000, -20000] the peak at
    index 1 stands 40000 units above the reference level; the 32-bit
    subtraction wraps and the prominence returned is negative, so the
    entry point reports that no peak was found.  The same happens on the
    full-scale signal [-32768, 32767, -32768]. *)
Theorem prominence_negative_on_wide_swing :
  let signal_q16 := map to_q16 [-20000; 20000; -20000] in
  let full_scale := map to_q16 [-32768; 32767; -32768] in
  nth 1 signal_q16 0 - reference_level signal_q16 1 = 40000 * 65536 /\
  calculate_topological_prominence signal_q16 3 1 = -1673527296 /\
  run [-20000; 20000; -20000] None = (PEAK_FP_NO_PEAK_FOUND, -1) /\
  calculate_topological_prominence full_scale 3 1 = -65536 /\
  run [-32768; 32767; -32768] None = (PEAK_FP_NO_PEAK_FOUND, -1).
Proof. repeat split; vm_compute; reflexivity. Qed.

(** ** Mirror symmetry of the prominence *)




(** ** Candidate detection *)

Lemma set_nth_length (n : nat) (v : Z) (a : list Z) :
  length (set_nth n v a) = length a.
Proof.
  revert n. induction a as [| h t IH]; intros [| n]; simpl; auto.
Qed.

Lemma aset_length (a : list Z) (i v : Z) : length (aset a i v) = length a.
Proof. unfold aset. destruct (i <? 0); auto using set_nth_length. Qed.

Lemma firstn_set_nth (n : nat) (v : Z) (a : list Z) :
  (n < length a)%nat -> firstn (S n) (set_nth n v a) = firstn n a ++ [v].
Proof.
  revert n. induction a as [| h t IH]; intros n Hn; simpl in Hn; [lia |].
  destruct n as [| n]; [reflexivity |].
  cbn [set_nth]. change (firstn (S (S n)) (h :: set_nth n v t))
    with (h :: firstn (S n) (set_nth n v t)).
  rewrite IH by lia. reflexivity.
Qed.

Lemma skipn_set_nth (n : nat) (v : Z) (a : list Z) :
  skipn (S n) (set_nth n v a) = skipn (S n) a.
Proof.
  revert n. induction a as [| h t IH]; intros [| n]; try reflexivity.
  cbn [set_nth]. change (skipn (S (S n)) (h :: set_nth n v t))
    with (skipn (S n) (set_nth n v t)). apply IH.
Qed.

Lemma compute_gradient_at_int32 (signal : list Z) (L i : Z) :
  is_int32 (compute_gradient_at signal L i).
Proof.
  unfold compute_gradient_at.
  destruct (i =? 0); [apply wrap32_range |].
  destruct (i =? L - 1); [apply wrap32_range |].
  pose proof (wrap32_range (aget signal (i + 1) - aget signal (i - 1))) as H.
  unfold sub32. rewrite Z.shiftr_div_pow2 by lia. change (2 ^ 1) with 2.
  unfold is_int32, INT32_MIN, INT32_MAX in *.
  split.
  - apply Z.div_le_lower_bound; lia.
  - enough (wrap32 (aget signal (i + 1) - aget signal (i - 1)) / 2
            < 2147483648) by lia.
    apply Z.div_lt_upper_bound; lia.
Qed.

Lemma compute_gradient_at_spec (signal : list Z) (L i : Z) :
  compute_gradient_at signal L i = gradient signal L i.
Proof.
  unfold compute_gradient_at, gradient.
  destruct (i =? 0); [reflexivity |]. destruct (i =? L - 1); [reflexivity |].
  rewrite Z.shiftr_div_pow2 by lia. reflexivity.
Qed.

Lemma grad_mag_spec (g : Z) :
  is_int32 g -> (if g >? 0 then g else neg32 g) = abs32 g.
Proof.
  intros Hg. unfold abs32, neg32. cmp.
  destruct (Z.ltb_spec 0 g).
  - rewrite Z.abs_eq by lia. symmetry. apply wrap32_id, Hg.
  - rewrite Z.abs_neq by lia. reflexivity.
Qed.

Lemma peak_conditions_spec (signal : list Z) (L : Z) (config : PeakConfigFP)
  (i : Z) :
  peak_conditions signal config i
    (compute_gradient_at signal L (i - 1)) (compute_gradient_at signal L i) =
  is_candidate signal L config i.
Proof.
  unfold peak_conditions, is_candidate, zero_crossing, local_maximum.
  rewrite grad_mag_spec by apply compute_gradient_at_int32.
  rewrite !compute_gradient_at_spec. cmp. reflexivity.
Qed.

Section Scan.

Variable signal : list Z.
Variable L : Z.
Variable config : PeakConfigFP.
Variable max_peaks : Z.

Lemma scan_loop_spec (fuel : nat) : forall i pk count,
  Z.of_nat fuel = L - 1 - i -> 1 <= i ->
  0 <= count <= max_peaks -> max_peaks <= Z.of_nat (length pk) ->
  let appended :=
    firstn (Z.to_nat (max_peaks - count))
      (filter (is_candidate signal L config) (zrange i fuel)) in
  let r := scan_loop fuel signal L config max_peaks i
             (compute_gradient_at signal L (i - 1)) pk count in
  snd r = count + Z.of_nat (length appended) /\
  firstn (Z.to_nat (snd r)) (fst r) = firstn (Z.to_nat count) pk ++ appended /\
  skipn (Z.to_nat (snd r)) (fst r) = skipn (Z.to_nat (snd r)) pk /\
  length (fst r) = length pk.
Proof.
  induction fuel as [| fuel IH]; intros i pk count Hfuel Hi Hcount Hcap;
    cbv zeta.
  - cbn [scan_loop zrange filter fst snd]. rewrite firstn_nil, app_nil_r.
    cbn [length]. repeat split; lia.
  - cbn [scan_loop zrange filter].
    destruct (Z.ltb_spec i (L - 1)) as [Hlt | Hge]; [| lia].
    rewrite peak_conditions_spec.
    assert (Hnext : compute_gradient_at signal L i =
                    compute_gradient_at signal L (i + 1 - 1))
      by (f_equal; lia).
    destruct (is_candidate signal L config i).
    + destruct (Z.ltb_spec count max_peaks) as [Hroom | Hfull].
      * rewrite Hnext.
        specialize (IH (i + 1) (aset pk count i) (count + 1)).
        cbv zeta in IH. rewrite aset_length in IH.
        destruct IH as (E1 & E2 & E3 & E4); try lia.
        set (r := scan_loop fuel signal L config max_peaks (i + 1) _ _ _) in *.
        replace (Z.to_nat (max_peaks - count))
          with (S (Z.to_nat (max_peaks - (count + 1)))) by lia.
        cbn [firstn length].
        assert (Hs : Z.to_nat (count + 1) = S (Z.to_nat count)) by lia.
        assert (Ha : aset pk count i = set_nth (Z.to_nat count) i pk).
        { unfold aset. destruct (Z.ltb_spec count 0); [lia | reflexivity]. }
        repeat split.
        -- lia.
        -- rewrite E2, Hs, Ha, firstn_set_nth by lia.
           rewrite <- app_assoc. reflexivity.
        -- rewrite E3, Ha.
           replace (Z.to_nat (snd r))
             with ((Z.to_nat (snd r) - S (Z.to_nat count)) + S (Z.to_nat count))%nat
             by lia.
           rewrite <- !skipn_skipn, skipn_set_nth. reflexivity.
        -- exact E4.
      * replace (Z.to_nat (max_peaks - count)) with O by lia.
        cbn [firstn length fst snd]. rewrite app_nil_r. repeat split; lia.
    + rewrite Hnext. apply IH; lia.
Qed.

End Scan.

Lemma zrange_In (n : nat) : forall i j,
  In j (zrange i n) <-> i <= j < i + Z.of_nat n.
Proof.
  induction n as [| n IH]; intros i j; cbn [zrange In]; [lia |].
  rewrite IH. lia.
Qed.

Lemma zrange_sorted (n : nat) : forall i, StronglySorted Z.lt (zrange i n).
Proof.
  induction n as [| n IH]; intros i; cbn [zrange]; constructor; [apply IH |].
  apply Forall_forall. intros j Hj. apply zrange_In in Hj. lia.
Qed.

Lemma filter_sorted (f : Z -> bool) (l : list Z) :
  StronglySorted Z.lt l -> StronglySorted Z.lt (filter f l).
Proof.
  induction 1 as [| x t Ht IH Hx]; cbn [filter]; [constructor |].
  destruct (f x); [| exact IH]. constructor; [exact IH |].
  rewrite Forall_forall in *. intros y Hy. apply filter_In in Hy.
  apply Hx, Hy.
Qed.

Lemma firstn_sorted (l : list Z) : forall n,
  StronglySorted Z.lt l -> StronglySorted Z.lt (firstn n l).
Proof.
  induction l as [| x t IH]; intros [| n] Hs; cbn [firstn]; try constructor.
  - apply IH. now inversion Hs.
  - apply Forall_firstn_Z. now inversion Hs.
Qed.

Lemma all_candidates_In (signal : list Z) (L : Z) (config : PeakConfigFP)
  (j : Z) :
  In j (all_candidates signal L config) <->
  1 <= j <= L - 2 /\ is_candidate signal L config j = true.
Proof.
  unfold all_candidates, interior_indices. rewrite filter_In, zrange_In.
  split; intros [H1 H2]; (split; [lia | exact H2]).
Qed.

Lemma In_firstn (n : nat) (l : list Z) (x : Z) : In x (firstn n l) -> In x l.
Proof.
  intros H. rewrite <- (firstn_skipn n l). apply in_or_app. now left.
Qed.

(** The candidate scan on any buffers: [length] need only be at least 3
    and the candidate buffer at least [max_peaks] long. *)
Lemma find_peak_candidates_scan (signal : list Z) (L : Z)
  (config : PeakConfigFP) (peak_indices : list Z) (max_peaks : Z) :
  3 <= L -> 0 <= max_peaks <= Z.of_nat (length peak_indices) ->
  exists pk num,
    find_peak_candidates signal L config peak_indices max_peaks =
      (PEAK_FP_OK, pk, num) /\
    num = Z.of_nat (length (expected_candidates signal L config max_peaks)) /\
    firstn (Z.to_nat num) pk = expected_candidates signal L config max_peaks /\
    skipn (Z.to_nat num) pk = skipn (Z.to_nat num) peak_indices /\
    length pk = length peak_indices.
Proof.
  intros HL Hcap. unfold find_peak_candidates.
  destruct (Z.ltb_spec L 3) as [Hs | _]; [lia |].
  pose proof (scan_loop_spec signal L config max_peaks (Z.to_nat (L - 2))
                1 peak_indices 0) as H.
  cbv zeta in H. change (1 - 1) with 0 in H.
  destruct H as (E1 & E2 & E3 & E4); try lia.
  destruct (scan_loop _ _ _ _ _ _ _ _ _) as [pk num].
  cbn [fst snd] in *. exists pk, num.
  rewrite Z.sub_0_r in *. cbn [Z.to_nat firstn app] in E2.
  change (Z.to_nat 0) with O in E2. cbn [firstn app] in E2.
  unfold expected_candidates, all_candidates, interior_indices.
  repeat split; assumption.
Qed.

(** On a signal of length L >= 3 the scan succeeds and leaves in the
    candidate buffer exactly the first min(max_peaks, total) indices of
    1 .. L-2, ascending, that pass the test
    (zero-crossing or local maximum) and above the noise floor and
    |previous gradient| >= threshold, all differences and the absolute
    value being the 32-bit ones of the code; the rest of the buffer is
    left untouched. *)
Theorem find_peak_candidates_spec :
  forall (signal : list Z) (L : Z) (config : PeakConfigFP)
         (peak_indices : list Z) (max_peaks : Z),
    3 <= L -> L = Z.of_nat (length signal) ->
    0 <= max_peaks <= Z.of_nat (length peak_indices) ->
    exists pk num,
      find_peak_candidates signal L config peak_indices max_peaks =
        (PEAK_FP_OK, pk, num) /\
      num = Z.min max_peaks
              (Z.of_nat (length (all_candidates signal L config))) /\
      firstn (Z.to_nat num) pk =
        firstn (Z.to_nat max_peaks)
          (filter (is_candidate signal L config) (interior_indices L)) /\
      skipn (Z.to_nat num) pk = skipn (Z.to_nat num) peak_indices /\
      StronglySorted Z.lt (firstn (Z.to_nat num) pk) /\
      (forall j, In j (firstn (Z.to_nat num) pk) -> 1 <= j <= L - 2) /\
      (forall i, compute_gradient_at signal L i = gradient signal L i).
Proof.
  intros signal L config peak_indices max_peaks HL _ Hcap.
  destruct (find_peak_candidates_scan signal L config peak_indices max_peaks
              HL Hcap) as (pk & num & E & En & Ef & Es & _).
  exists pk, num. rewrite Ef.
  split; [exact E |]. split.
  { rewrite En. unfold expected_candidates. rewrite length_firstn. lia. }
  split; [reflexivity |]. split; [exact Es |]. split; [| split].
  - apply firstn_sorted, filter_sorted, zrange_sorted.
  - intros j Hj. apply In_firstn in Hj. apply all_candidates_In in Hj. lia.
  - intros i. apply compute_gradient_at_spec.
Qed.

Lemma find_peak_candidates_spec_witness :
  let signal := map to_q16 [10;40;70;80;60;40;70;100;50;20] in
  exists pk,
    find_peak_candidates signal 10 default_config_fp (zeros 32) MAX_PEAKS =
      (PEAK_FP_OK, pk, 2) /\
    firstn 2 pk = [3; 7] /\
    all_candidates signal 10 default_config_fp = [3; 7].
Proof.
  intros signal.
  destruct (find_peak_candidates_spec signal 10 default_config_fp (zeros 32)
              MAX_PEAKS) as (pk & num & E & En & Ef & _).
  - lia.
  - reflexivity.
  - vm_compute. split; discriminate.
  - exists pk.
    assert (Hn : num = 2) by (rewrite En; vm_compute; reflexivity).
    clear En. subst num. split; [exact E |]. split; [| vm_compute; reflexivity].
    change (Z.to_nat 2) with 2%nat in Ef. rewrite Ef. vm_compute. reflexivity.
Defined.

(** ** Selection *)

Lemma zrange_map_aget (a : list Z) (n : nat) : forall i : nat,
  (i + n <= length a)%nat ->
  map (aget a) (zrange (Z.of_nat i) n) = firstn n (skipn i a).
Proof.
  induction n as [| n IH]; intros i Hi; [reflexivity |].
  cbn [zrange map]. rewrite aget_nth, (skipn_cons_nth a i) by lia.
  cbn [firstn]. f_equal.
  replace (Z.of_nat i + 1) with (Z.of_nat (S i)) by lia. apply IH. lia.
Qed.

Section Selection.

Variable signal : list Z.
Variable L : Z.
Variable config : PeakConfigFP.

Let prom := calculate_topological_prominence signal L.
Let t := prominence_threshold_q16 config.

Lemma select_loop_fold (pk : list Z) (num : Z) (fuel : nat) : forall i st,
  Z.of_nat fuel = num - i ->
  select_loop fuel signal L pk num config i (fst st) (snd st) =
  fold_left (select_step prom t) (map (aget pk) (zrange i fuel)) st.
Proof.
  induction fuel as [| fuel IH]; intros i [mp bi] Hf; [reflexivity |].
  cbn [select_loop zrange map fold_left fst snd].
  destruct (Z.ltb_spec i num); [| lia].
  unfold select_step at 2. cbn [fst snd]. fold prom t.
  destruct ((prom (aget pk i) >=? t) && (prom (aget pk i) >? mp));
    rewrite <- IH by lia; reflexivity.
Qed.

Lemma select_step_eq (mp bi x : Z) :
  select_step prom t (mp, bi) x =
  if (t <=? prom x) && (mp <? prom x) then (prom x, x) else (mp, bi).
Proof. unfold select_step. cbn [fst]. cmp. reflexivity. Qed.

(** What the loop computes on the remaining candidates [l] from the
    running maximum [mp]. *)
Lemma select_fold_spec (l : list Z) : forall mp bi,
  let r := fold_left (select_step prom t) l (mp, bi) in
  (r = (mp, bi) /\ forall x, In x l -> ~ (t <= prom x /\ mp < prom x)) \/
  (exists k, first_most_prominent prom t l k /\ mp < prom (nth k l 0) /\
             r = (prom (nth k l 0), nth k l 0)).
Proof.
  induction l as [| x l IH]; intros mp bi; cbv zeta.
  - left. split; [reflexivity | intros x []].
  - cbn [fold_left]. rewrite select_step_eq.
    destruct (Z.leb_spec t (prom x)) as [Ht | Ht];
      [destruct (Z.ltb_spec mp (prom x)) as [Hm | Hm] |]; cbn [andb].
    + (* x becomes the running best *)
      right. destruct (IH (prom x) x) as [[E Hn] | (k & (Hk & Hkt & Hmax & Hfirst) & Hgt & E)].
      * exists O. cbn [nth]. split; [| split; [exact Hm | exact E]].
        split; [cbn; lia |]. split; [exact Ht |]. split; [| intros j Hj; lia].
        intros [| j] Hj Hjt; cbn [nth]; [lia |].
        cbn [length] in Hj.
        assert (Hin : In (nth j l 0) l) by (apply nth_In; lia).
        specialize (Hn _ Hin). lia.
      * exists (S k). cbn [nth]. split; [| split; [lia | exact E]].
        split; [cbn [length]; lia |]. split; [exact Hkt |]. split.
        -- intros [| j] Hj Hjt; cbn [nth]; [lia |].
           apply Hmax; [cbn [length] in Hj; lia | exact Hjt].
        -- intros [| j] Hj Hjt; cbn [nth]; [lia |].
           apply Hfirst; [lia | exact Hjt].
    + (* x meets the threshold but does not beat the running best *)
      destruct (IH mp bi) as [[E Hn] | (k & (Hk & Hkt & Hmax & Hfirst) & Hgt & E)].
      * left. split; [exact E |]. intros y [<- | Hy]; [lia | apply Hn, Hy].
      * right. exists (S k). cbn [nth]. split; [| split; [exact Hgt | exact E]].
        split; [cbn [length]; lia |]. split; [exact Hkt |]. split.
        -- intros [| j] Hj Hjt; cbn [nth]; [lia |].
           apply Hmax; [cbn [length] in Hj; lia | exact Hjt].
        -- intros [| j] Hj Hjt; cbn [nth]; [lia |].
           apply Hfirst; [lia | exact Hjt].
    + (* x is below the threshold *)
      destruct (IH mp bi) as [[E Hn] | (k & (Hk & Hkt & Hmax & Hfirst) & Hgt & E)].
      * left. split; [exact E |]. intros y [<- | Hy]; [lia | apply Hn, Hy].
      * right. exists (S k). cbn [nth]. split; [| split; [exact Hgt | exact E]].
        split; [cbn [length]; lia |]. split; [exact Hkt |]. split.
        -- intros [| j] Hj Hjt; cbn [nth]; [lia |].
           apply Hmax; [cbn [length] in Hj; lia | exact Hjt].
        -- intros [| j] Hj Hjt; cbn [nth]; [lia |].
           apply Hfirst; [lia | exact Hjt].
Qed.

End Selection.

Lemma prominence_int32 (signal : list Z) (L idx : Z) :
  is_int32 (calculate_topological_prominence signal L idx).
Proof. apply wrap32_range. Qed.

Lemma candidates_of_buffer (pk : list Z) (num : Z) :
  0 <= num <= Z.of_nat (length pk) ->
  map (aget pk) (zrange 0 (Z.to_nat num)) = firstn (Z.to_nat num) pk.
Proof.
  intros Hn. change 0 with (Z.of_nat O).
  rewrite (zrange_map_aget pk (Z.to_nat num) O) by lia.
  reflexivity.
Qed.

(** The result of [select_prominent_peak] on a buffer whose first
    [num_peaks] entries are non-negative indices: either the first most
    prominent candidate among those meeting the threshold, or no peak;
    a prominence of INT32_MIN, the initial running maximum, is never
    selected. *)
Lemma select_prominent_peak_result (signal : list Z) (L : Z) (pk : list Z)
  (num : Z) (config : PeakConfigFP) (out : cell) (outp : option cell) :
  0 <= num <= Z.of_nat (length pk) ->
  (forall c, In c (firstn (Z.to_nat num) pk) -> 0 <= c) ->
  let cands := firstn (Z.to_nat num) pk in
  let prom := calculate_topological_prominence signal L in
  let t := prominence_threshold_q16 config in
  (exists k,
     first_most_prominent prom t cands k /\
     INT32_MIN < prom (nth k cands 0) /\
     select_prominent_peak signal L pk num config out outp =
       (PEAK_FP_OK, store (nth k cands 0) out,
        option_map (store (prom (nth k cands 0))) outp)) \/
  ((forall c, In c cands -> prom c < t \/ prom c = INT32_MIN) /\
   select_prominent_peak signal L pk num config out outp =
     (PEAK_FP_NO_PEAK_FOUND, out, outp)).
Proof.
  intros Hn Hvalid cands prom t. unfold select_prominent_peak.
  pose proof (select_loop_fold signal L config pk num (Z.to_nat num) 0
                (INT32_MIN, -1)) as Hfold.
  cbn [fst snd] in Hfold. rewrite Hfold by lia. clear Hfold.
  rewrite candidates_of_buffer by exact Hn.
  pose proof (select_fold_spec signal L config cands INT32_MIN (-1)) as Hspec.
  cbv zeta in Hspec. subst cands prom t.
  set (cands := firstn (Z.to_nat num) pk) in *.
  set (prom := calculate_topological_prominence signal L) in *.
  set (t := prominence_threshold_q16 config) in *.
  destruct Hspec as [[E Hnone] | (k & Hk & Hgt & E)].
  - right. rewrite E. cbn. split; [| reflexivity].
    intros c Hc. specialize (Hnone c Hc).
    pose proof (prominence_int32 signal L c) as Hr. fold prom in Hr.
    unfold is_int32 in Hr. lia.
  - left. exists k. split; [exact Hk |]. split; [exact Hgt |].
    rewrite E.
    assert (Hpos : 0 <= nth k cands 0).
    { apply Hvalid, nth_In. apply Hk. }
    destruct (Z.geb_spec (nth k cands 0) 0); [| lia].
    destruct outp; reflexivity.
Qed.

Lemma first_most_prominent_lower (prom : Z -> Z) (t1 t2 : Z) (cands : list Z)
  (k1 k2 : nat) :
  t2 <= t1 ->
  first_most_prominent prom t1 cands k1 ->
  first_most_prominent prom t2 cands k2 ->
  k1 = k2.
Proof.
  intros Ht (Hk1 & Ht1 & Hmax1 & Hfirst1) (Hk2 & Ht2 & Hmax2 & Hfirst2).
  assert (H12 : prom (nth k1 cands 0) <= prom (nth k2 cands 0))
    by (apply Hmax2; lia).
  assert (H21 : prom (nth k2 cands 0) <= prom (nth k1 cands 0))
    by (apply Hmax1; lia).
  destruct (Nat.lt_trichotomy k1 k2) as [Hlt | [Heq | Hgt]]; [| exact Heq |].
  - specialize (Hfirst2 k1 Hlt). lia.
  - specialize (Hfirst1 k2 Hgt). lia.
Qed.

(** For a prominence threshold above INT32_MIN and a candidate list
    of valid indices, [select_prominent_peak] returns the candidate with
    the largest prominence among those meeting the threshold, the first
    one on ties; when no candidate's prominence clears the threshold it
    returns "no peak found" and stores nothing. *)
Theorem select_prominent_peak_spec :
  forall (signal : list Z) (L : Z) (peak_indices : list Z) (num_peaks : Z)
         (config : PeakConfigFP) (out : cell) (outp : option cell),
    L = Z.of_nat (length signal) ->
    0 <= num_peaks <= Z.of_nat (length peak_indices) ->
    (forall c, In c (firstn (Z.to_nat num_peaks) peak_indices) -> 0 <= c < L) ->
    INT32_MIN < prominence_threshold_q16 config ->
    let cands := firstn (Z.to_nat num_peaks) peak_indices in
    let prom := calculate_topological_prominence signal L in
    let t := prominence_threshold_q16 config in
    (exists k,
       first_most_prominent prom t cands k /\
       select_prominent_peak signal L peak_indices num_peaks config out outp =
         (PEAK_FP_OK, store (nth k cands 0) out,
          option_map (store (prom (nth k cands 0))) outp)) \/
    ((forall c, In c cands -> prom c < t) /\
     select_prominent_peak signal L peak_indices num_peaks config out outp =
       (PEAK_FP_NO_PEAK_FOUND, out, outp)).
Proof.
  intros signal L pk num config out outp _ Hn Hvalid Ht.
  cbv zeta.
  destruct (select_prominent_peak_result signal L pk num config out outp Hn)
    as [(k & Hk & _ & E) | [Hnone E]].
  - intros c Hc. apply Hvalid in Hc. lia.
  - left. exists k. split; assumption.
  - right. split; [| exact E]. intros c Hc. specialize (Hnone c Hc). lia.
Qed.

(** With a threshold above INT32_MIN, "no peak found" means that no
    candidate's prominence clears the threshold. *)
Lemma select_no_peak_iff_none_clears (signal : list Z) (L : Z) (pk : list Z)
  (num : Z) (config : PeakConfigFP) (out : cell) (outp : option cell) :
  0 <= num <= Z.of_nat (length pk) ->
  (forall c, In c (firstn (Z.to_nat num) pk) -> 0 <= c) ->
  INT32_MIN < prominence_threshold_q16 config ->
  (fst (fst (select_prominent_peak signal L pk num config out outp)) =
     PEAK_FP_NO_PEAK_FOUND <->
   forall c, In c (firstn (Z.to_nat num) pk) ->
     calculate_topological_prominence signal L c <
     prominence_threshold_q16 config).
Proof.
  intros Hn Hvalid Ht.
  destruct (select_prominent_peak_result signal L pk num config out outp
              Hn Hvalid) as [(k & Hk & _ & E) | [Hnone E]]; rewrite E; cbn [fst].
  - split; [discriminate |]. intros Hall. exfalso.
    destruct Hk as (Hlen & Hkt & _).
    specialize (Hall _ (nth_In _ 0 Hlen)). lia.
  - split; [| reflexivity]. intros _ c Hc. specialize (Hnone c Hc). lia.
Qed.

Lemma select_prominent_peak_spec_witness :
  let signal := map to_q16 [10;40;70;80;60;40;70;100;50;20] in
  let prom := calculate_topological_prominence signal 10 in
  (exists k,
     first_most_prominent prom PROMINENCE_THRESHOLD_Q16 [3; 7] k /\
     select_prominent_peak signal 10 [3; 7] 2 default_config_fp
       (mkCell (-1) 0) None =
       (PEAK_FP_OK, store (nth k [3; 7] 0) (mkCell (-1) 0), None)) \/
  ((forall c, In c [3; 7] -> prom c < PROMINENCE_THRESHOLD_Q16) /\
   select_prominent_peak signal 10 [3; 7] 2 default_config_fp
     (mkCell (-1) 0) None = (PEAK_FP_NO_PEAK_FOUND, mkCell (-1) 0, None)).
Proof.
  intros signal prom.
  apply (select_prominent_peak_spec signal 10 [3; 7] 2 default_config_fp
           (mkCell (-1) 0) None).
  - reflexivity.
  - cbn. lia.
  - intros c Hc. vm_compute in Hc. destruct Hc as [<- | [<- | []]]; lia.
  - reflexivity.
Defined.

(** C5: a prominence of INT32_MIN, which the wrapping subtraction of
    [calculate_topological_prominence] produces for a peak 32768 units
    above its reference level, is never selected: the loop starts from
    INT32_MIN and asks for a strictly greater value.  With the threshold
    INT32_MIN the only candidate clears the threshold, is the most
    prominent one, and "no peak found" is returned, by
    [select_prominent_peak] and by the entry point alike. *)
Theorem select_skips_prominence_INT32_MIN :
  let signal := map to_q16 [-32768; 0; -32768] in
  let config := mkPeakConfigFP INT32_MIN 0 0 in
  let samples := [-1; 0; 32767; 0; -1] in
  let config' := mkPeakConfigFP INT32_MIN GRADIENT_THRESHOLD_Q16 NOISE_FLOOR_Q16 in
  calculate_topological_prominence signal 3 1 >= prominence_threshold_q16 config /\
  first_most_prominent (calculate_topological_prominence signal 3)
    (prominence_threshold_q16 config) [1] 0 /\
  select_prominent_peak signal 3 [1] 1 config (mkCell (-1) 0) None =
    (PEAK_FP_NO_PEAK_FOUND, mkCell (-1) 0, None) /\
  expected_candidates (map to_q16 samples) 5 config' MAX_PEAKS = [2] /\
  calculate_topological_prominence (map to_q16 samples) 5 2 = INT32_MIN /\
  run samples (Some config') = (PEAK_FP_NO_PEAK_FOUND, -1).
Proof.
  cbv zeta. split; [vm_compute; discriminate |].
  split; [| repeat split; vm_compute; reflexivity].
  unfold first_most_prominent. cbn [length nth].
  split; [lia |]. split; [vm_compute; discriminate |]. split.
  - intros [| j] Hj _; [lia | cbn in Hj; lia].
  - intros j Hj. lia.
Qed.

(** ** Lowering the prominence threshold *)

Lemma meets_threshold_mono (signal : list Z) (L : Z)
  (config1 config2 : PeakConfigFP) (idx : Z) :
  prominence_threshold_q16 config2 <= prominence_threshold_q16 config1 ->
  meets_threshold signal L config1 idx = true ->
  meets_threshold signal L config2 idx = true.
Proof.
  unfold meets_threshold. cmp. intros Ht H1.
  apply Z.leb_le in H1. apply Z.leb_le. lia.
Qed.

Lemma select_stable_under_lower_threshold (signal : list Z) (L : Z)
  (pk : list Z) (num : Z) (config1 config2 : PeakConfigFP)
  (out : cell) (outp : option cell) :
  0 <= num <= Z.of_nat (length pk) ->
  (forall c, In c (firstn (Z.to_nat num) pk) -> 0 <= c) ->
  prominence_threshold_q16 config2 <= prominence_threshold_q16 config1 ->
  fst (fst (select_prominent_peak signal L pk num config1 out outp)) =
    PEAK_FP_OK ->
  select_prominent_peak signal L pk num config2 out outp =
  select_prominent_peak signal L pk num config1 out outp.
Proof.
  intros Hn Hvalid Ht Hok.
  destruct (select_prominent_peak_result signal L pk num config1 out outp
              Hn Hvalid) as [(k1 & Hk1 & Hgt1 & E1) | [_ E1]];
    rewrite E1 in *; cbn [fst] in Hok; [| discriminate].
  destruct (select_prominent_peak_result signal L pk num config2 out outp
              Hn Hvalid) as [(k2 & Hk2 & Hgt2 & E2) | [Hnone E2]];
    rewrite E2.
  - rewrite (first_most_prominent_lower _ _ _ _ _ _ Ht Hk1 Hk2).
    reflexivity.
  - exfalso. destruct Hk1 as (Hlen & Hkt & _).
    specialize (Hnone _ (nth_In _ 0 Hlen)). lia.
Qed.

(** C7: for a fixed signal and candidate list, every candidate that
    passes the threshold test at a threshold t1 passes it at any lower
    threshold t2, so the accepted set can only grow; and a peak that
    selection returned at t1 is returned unchanged at t2. *)
Theorem lowering_threshold_only_adds :
  forall (signal : list Z) (L : Z) (peak_indices : list Z) (num_peaks : Z)
         (config1 config2 : PeakConfigFP) (out : cell) (outp : option cell),
    prominence_threshold_q16 config2 <= prominence_threshold_q16 config1 ->
    gradient_threshold_q16 config2 = gradient_threshold_q16 config1 ->
    noise_floor_q16 config2 = noise_floor_q16 config1 ->
    0 <= num_peaks <= Z.of_nat (length peak_indices) ->
    (forall c, In c (firstn (Z.to_nat num_peaks) peak_indices) -> 0 <= c < L) ->
    let cands := firstn (Z.to_nat num_peaks) peak_indices in
    incl (accepted signal L config1 cands) (accepted signal L config2 cands) /\
    (fst (fst (select_prominent_peak signal L peak_indices num_peaks config1
                 out outp)) = PEAK_FP_OK ->
     select_prominent_peak signal L peak_indices num_peaks config2 out outp =
     select_prominent_peak signal L peak_indices num_peaks config1 out outp).
Proof.
  intros signal L pk num config1 config2 out outp Ht _ _ Hn Hvalid cands.
  split.
  - intros c Hc. unfold accepted in *. rewrite filter_In in *.
    destruct Hc as [Hin Hm]. split; [exact Hin |].
    eapply meets_threshold_mono; eassumption.
  - apply select_stable_under_lower_threshold; try assumption.
    intros c Hc. apply Hvalid in Hc. lia.
Qed.

Lemma lowering_threshold_only_adds_witness :
  let signal := map to_q16 [10;40;70;80;60;40;70;100;50;20] in
  let strict := mkPeakConfigFP (to_q16 50) GRADIENT_THRESHOLD_Q16 NOISE_FLOOR_Q16 in
  accepted signal 10 strict [3; 7] = [7] /\
  accepted signal 10 default_config_fp [3; 7] = [3; 7] /\
  incl (accepted signal 10 strict [3; 7])
       (accepted signal 10 default_config_fp [3; 7]).
Proof.
  intros signal strict.
  split; [vm_compute; reflexivity |]. split; [vm_compute; reflexivity |].
  refine (proj1 (lowering_threshold_only_adds signal 10 [3; 7] 2
                   strict default_config_fp (mkCell (-1) 0) None _ _ _ _ _)).
  - vm_compute. discriminate.
  - reflexivity.
  - reflexivity.
  - cbn. lia.
  - intros c Hc. vm_compute in Hc. destruct Hc as [<- | [<- | []]]; lia.
Defined.

(** ** Buffers *)

Lemma nth_set_nth_same (n : nat) (v : Z) (a : list Z) :
  (n < length a)%nat -> nth n (set_nth n v a) 0 = v.
Proof.
  revert n. induction a as [| h t IH]; intros [| n] Hn; simpl in *;
    try lia; auto with arith.
Qed.

Lemma nth_set_nth_other (n m : nat) (v : Z) (a : list Z) :
  n <> m -> nth m (set_nth n v a) 0 = nth m a 0.
Proof.
  revert n m. induction a as [| h t IH]; intros [| n] [| m] Hnm; simpl;
    try reflexivity; try lia.
  apply IH. lia.
Qed.

Lemma aget_aset_same (a : list Z) (i v : Z) :
  0 <= i < Z.of_nat (length a) -> aget (aset a i v) i = v.
Proof.
  intros Hi. unfold aget, aset. destruct (Z.ltb_spec i 0); [lia |].
  apply nth_set_nth_same. lia.
Qed.

Lemma aget_aset_other (a : list Z) (i j v : Z) :
  i <> j -> aget (aset a i v) j = aget a j.
Proof.
  intros Hij. unfold aget, aset.
  destruct (Z.ltb_spec j 0); [reflexivity |].
  destruct (Z.ltb_spec i 0); [reflexivity |].
  apply nth_set_nth_other. lia.
Qed.

Lemma to_q16_0 : to_q16 0 = 0.
Proof. reflexivity. Qed.

Lemma aget_map_to_q16 (signal : list Z) (j : Z) :
  aget (map to_q16 signal) j = to_q16 (aget signal j).
Proof.
  unfold aget. destruct (j <? 0); [reflexivity |].
  rewrite <- to_q16_0 at 1. apply map_nth.
Qed.

Lemma convert_loop_spec (signal : list Z) (L : Z) (fuel : nat) : forall i buf,
  Z.of_nat fuel = L - i -> 0 <= i -> L <= Z.of_nat (length buf) ->
  let buf' := convert_loop fuel signal L i buf in
  length buf' = length buf /\
  (forall j, i <= j < L -> aget buf' j = to_q16 (aget signal j)) /\
  (forall j, j < i -> aget buf' j = aget buf j).
Proof.
  induction fuel as [| fuel IH]; intros i buf Hf Hi Hlen; cbv zeta.
  - cbn [convert_loop]. repeat split; intros; solve [reflexivity | lia].
  - cbn [convert_loop]. destruct (Z.ltb_spec i L); [| lia].
    specialize (IH (i + 1) (aset buf i (to_q16 (aget signal i)))).
    cbv zeta in IH. rewrite aset_length in IH.
    destruct IH as (E1 & E2 & E3); try lia.
    split; [exact E1 |]. split.
    + intros j Hj. destruct (Z.eq_dec j i) as [-> | Hne].
      * rewrite E3 by lia. apply aget_aset_same. lia.
      * apply E2. lia.
    + intros j Hj. rewrite E3 by lia. apply aget_aset_other. lia.
Qed.

Lemma convert_loop_agree (signal : list Z) (L : Z) (buf : list Z) :
  0 <= L <= Z.of_nat (length buf) ->
  let buf' := convert_loop (Z.to_nat L) signal L 0 buf in
  length buf' = length buf /\ agree L buf' (map to_q16 signal).
Proof.
  intros HL. cbv zeta.
  destruct (convert_loop_spec signal L (Z.to_nat L) 0 buf) as (E1 & E2 & _);
    try lia.
  split; [exact E1 |]. intros j Hj. rewrite aget_map_to_q16. apply E2. lia.
Qed.

(** ** Detection depends on the first [length] samples only *)

Section Agreement.

Variables s1 s2 : list Z.
Variable L : Z.
Hypothesis Hagree : agree L s1 s2.

Lemma walk_left_agree (peak : Z) (fuel : nat) : forall i m,
  i < L ->
  walk_left fuel s1 peak i m = walk_left fuel s2 peak i m.
Proof.
  induction fuel as [| fuel IH]; intros i m Hi; [reflexivity |].
  cbn [walk_left]. destruct (Z.geb_spec i 0) as [Hge | Hneg]; [| reflexivity].
  rewrite (Hagree i) by lia. rewrite IH by lia. reflexivity.
Qed.

Lemma walk_right_agree (peak : Z) (fuel : nat) : forall i m,
  0 <= i ->
  walk_right fuel s1 L peak i m = walk_right fuel s2 L peak i m.
Proof.
  induction fuel as [| fuel IH]; intros i m Hi; [reflexivity |].
  cbn [walk_right]. destruct (Z.ltb_spec i L) as [Hlt | Hge]; [| reflexivity].
  rewrite (Hagree i) by lia. rewrite IH by lia. reflexivity.
Qed.

Lemma prominence_agree (idx : Z) :
  0 <= idx < L ->
  calculate_topological_prominence s1 L idx =
  calculate_topological_prominence s2 L idx.
Proof.
  intros Hidx. unfold calculate_topological_prominence.
  rewrite (Hagree idx) by lia.
  rewrite walk_left_agree by lia. rewrite walk_right_agree by lia.
  reflexivity.
Qed.

Lemma gradient_agree (i : Z) :
  2 <= L -> 0 <= i < L -> gradient s1 L i = gradient s2 L i.
Proof.
  intros HL Hi. unfold gradient.
  destruct (Z.eqb_spec i 0); [rewrite !Hagree by lia; reflexivity |].
  destruct (Z.eqb_spec i (L - 1)); rewrite !Hagree by lia; reflexivity.
Qed.

Lemma is_candidate_agree (config : PeakConfigFP) (i : Z) :
  1 <= i <= L - 2 -> is_candidate s1 L config i = is_candidate s2 L config i.
Proof.
  intros Hi. unfold is_candidate, zero_crossing, local_maximum.
  rewrite !(gradient_agree i), !(gradient_agree (i - 1)) by lia.
  rewrite !Hagree by lia. reflexivity.
Qed.

Lemma expected_candidates_agree (config : PeakConfigFP) (max_peaks : Z) :
  expected_candidates s1 L config max_peaks =
  expected_candidates s2 L config max_peaks.
Proof.
  unfold expected_candidates, all_candidates. f_equal.
  apply filter_ext_in. intros i Hi. apply zrange_In in Hi.
  apply is_candidate_agree. unfold interior_indices in *. lia.
Qed.

End Agreement.

Lemma fold_left_ext_in (f g : Z * Z -> Z -> Z * Z) (l : list Z) : forall st,
  (forall s x, In x l -> f s x = g s x) ->
  fold_left f l st = fold_left g l st.
Proof.
  induction l as [| x l IH]; intros st H; [reflexivity |].
  cbn [fold_left]. rewrite H by (left; reflexivity).
  apply IH. intros s y Hy. apply H. right. exact Hy.
Qed.

Lemma expected_candidates_range (sq : list Z) (L : Z) (config : PeakConfigFP)
  (max_peaks c : Z) :
  In c (expected_candidates sq L config max_peaks) -> 1 <= c <= L - 2.
Proof.
  intros H. apply In_firstn, all_candidates_In in H. lia.
Qed.

Lemma detect_agree (s1 s2 : list Z) (L : Z) (config : PeakConfigFP) :
  agree L s1 s2 -> detect s1 L config = detect s2 L config.
Proof.
  intros Hag. unfold detect.
  rewrite (expected_candidates_agree s1 s2 L Hag).
  rewrite (fold_left_ext_in
             (select_step (calculate_topological_prominence s1 L)
                          (prominence_threshold_q16 config))
             (select_step (calculate_topological_prominence s2 L)
                          (prominence_threshold_q16 config))).
  - reflexivity.
  - intros s c Hc. apply expected_candidates_range in Hc.
    unfold select_step. rewrite (prominence_agree s1 s2 L Hag) by lia.
    reflexivity.
Qed.


(** The part of both entry points that follows the conversion loop. *)
Lemma detection_after_conversion (sq pkbuf : list Z) (L : Z)
  (config : PeakConfigFP) (out : cell) :
  3 <= L -> MAX_PEAKS <= Z.of_nat (length pkbuf) ->
  exists pk num,
    find_peak_candidates sq L config pkbuf MAX_PEAKS = (PEAK_FP_OK, pk, num) /\
    (if num =? 0 then (PEAK_FP_NO_PEAK_FOUND, Some out)
     else
       let '(result, out', _) :=
         select_prominent_peak sq L pk num config out None in
       (result, Some out')) = outcome_of (detect sq L config) out.
Proof.
  intros HL Hcap.
  destruct (find_peak_candidates_scan sq L config pkbuf MAX_PEAKS HL)
    as (pk & num & E & En & Ef & _ & Elen).
  { unfold MAX_PEAKS in *. lia. }
  exists pk, num. split; [exact E |].
  assert (Hnum : 0 <= num <= Z.of_nat (length pk)).
  { rewrite En, Elen. unfold expected_candidates. rewrite length_firstn.
    unfold MAX_PEAKS in *. lia. }
  unfold detect, select_prominent_peak.
  pose proof (select_loop_fold sq L config pk num (Z.to_nat num) 0
                (INT32_MIN, -1)) as Hfold.
  cbn [fst snd] in Hfold. rewrite Hfold by lia. clear Hfold.
  rewrite candidates_of_buffer, Ef by exact Hnum.
  destruct (Z.eqb_spec num 0) as [H0 | Hn0].
  - assert (Hnil : expected_candidates sq L config MAX_PEAKS = []).
    { apply length_zero_iff_nil. lia. }
    rewrite Hnil. reflexivity.
  - destruct (fold_left _ _ _) as [mp bi]. cbn [snd].
    destruct (bi >=? 0); reflexivity.
Qed.

Lemma find_prominent_peak_fp_detect (sig : list Z) (L : Z) (out : cell)
  (user_config : option PeakConfigFP) (st : statics) :
  3 <= L <= MAX_SIGNAL_LENGTH -> statics_sized st ->
  outcome_fp (find_prominent_peak_fp (Some sig) L (Some out) user_config st) =
  outcome_of (detect (map to_q16 sig) L (effective_config user_config)) out.
Proof.
  intros HL [Hs Hp]. unfold find_prominent_peak_fp, outcome_fp.
  fold (effective_config user_config).
  destruct (Z.leb_spec L 0); [lia |].
  destruct (Z.gtb_spec L MAX_SIGNAL_LENGTH); [lia |]. cbn [orb].
  destruct (convert_loop_agree sig L (s_signal_q16 st)) as [Hlen Hag];
    [lia |].
  set (sq := convert_loop (Z.to_nat L) sig L 0 (s_signal_q16 st)) in *.
  destruct (detection_after_conversion sq (s_peak_candidates st) L
              (effective_config user_config) out)
    as (pk & num & E & Etail); [lia | lia |].
  rewrite E. cbn [PeakResultFP_eqb negb].
  rewrite <- (detect_agree sq _ L _ Hag), <- Etail.
  destruct (num =? 0); [reflexivity |].
  destruct (select_prominent_peak _ _ _ _ _ _ _) as [[r o] p]. reflexivity.
Qed.

Lemma find_prominent_peak_fp_buffered_detect (sig : list Z) (L : Z)
  (out : cell) (user_config : option PeakConfigFP) (sbuf pbuf : list Z) :
  3 <= L <= MAX_SIGNAL_LENGTH ->
  L <= Z.of_nat (length sbuf) -> MAX_PEAKS <= Z.of_nat (length pbuf) ->
  outcome_buffered
    (find_prominent_peak_fp_buffered (Some sig) L (Some out) user_config
       (Some sbuf) (Some pbuf)) =
  outcome_of (detect (map to_q16 sig) L (effective_config user_config)) out.
Proof.
  intros HL Hs Hp. unfold find_prominent_peak_fp_buffered, outcome_buffered.
  fold (effective_config user_config).
  destruct (Z.leb_spec L 0); [lia |].
  destruct (Z.gtb_spec L MAX_SIGNAL_LENGTH); [lia |]. cbn [orb].
  destruct (convert_loop_agree sig L sbuf) as [Hlen Hag]; [lia |].
  set (sq := convert_loop (Z.to_nat L) sig L 0 sbuf) in *.
  destruct (detection_after_conversion sq pbuf L
              (effective_config user_config) out)
    as (pk & num & E & Etail); [lia | lia |].
  rewrite E. cbn [PeakResultFP_eqb negb].
  rewrite <- (detect_agree sq _ L _ Hag), <- Etail.
  destruct (num =? 0); [reflexivity |].
  destruct (select_prominent_peak _ _ _ _ _ _ _) as [[r o] p]. reflexivity.
Qed.

(** ** The entry points *)

(** The shape of every result of [find_prominent_peak_fp] on non-null
    pointers and a length within (0, MAX_SIGNAL_LENGTH]. *)
Lemma find_prominent_peak_fp_shape (sig : list Z) (L : Z) (out : cell)
  (user_config : option PeakConfigFP) (st : statics) :
  0 < L <= MAX_SIGNAL_LENGTH ->
  let r := find_prominent_peak_fp (Some sig) L (Some out) user_config st in
  (L < 3 /\ fst r = (PEAK_FP_BUFFER_TOO_SMALL, Some out) /\
   s_peak_candidates (snd r) = s_peak_candidates st) \/
  (3 <= L /\
   (fst r = (PEAK_FP_NO_PEAK_FOUND, Some out) \/
    exists best, fst r = (PEAK_FP_OK, Some (store best out)))).
Proof.
  intros HL. cbv zeta. unfold find_prominent_peak_fp.
  destruct (Z.leb_spec L 0); [lia |].
  destruct (Z.gtb_spec L MAX_SIGNAL_LENGTH); [lia |]. cbn [orb].
  unfold find_peak_candidates.
  destruct (Z.ltb_spec L 3) as [Hsmall | Hbig].
  - left. cbn. auto.
  - right. split; [exact Hbig |].
    destruct (scan_loop _ _ _ _ _ _ _ _ _) as [pk num].
    cbn [PeakResultFP_eqb negb].
    destruct (num =? 0); [left; reflexivity |].
    unfold select_prominent_peak.
    destruct (select_loop _ _ _ _ _ _ _ _ _) as [mp bi].
    destruct (bi >=? 0); [right; exists bi | left]; reflexivity.
Qed.

(** C6: [find_prominent_peak_fp] returns "invalid input" exactly when the
    signal or the output pointer is null or the length lies outside
    (0, MAX_SIGNAL_LENGTH]; otherwise it returns "buffer too small"
    exactly when the length is below 3; with either code the output
    location and the candidate buffer are as before the call, and with
    "invalid input" so are both static buffers. *)
Theorem input_validation :
  forall (signal : option (list Z)) (length : Z) (peak_index : option cell)
         (user_config : option PeakConfigFP) (st : statics),
    let r := find_prominent_peak_fp signal length peak_index user_config st in
    let code := fst (fst r) in
    (code = PEAK_FP_INVALID_INPUT <->
     signal = None \/ peak_index = None \/
     length <= 0 \/ MAX_SIGNAL_LENGTH < length) /\
    (signal <> None -> peak_index <> None ->
     0 < length <= MAX_SIGNAL_LENGTH ->
     (code = PEAK_FP_BUFFER_TOO_SMALL <-> length < 3)) /\
    (code = PEAK_FP_INVALID_INPUT -> r = (code, peak_index, st)) /\
    (code = PEAK_FP_BUFFER_TOO_SMALL ->
     snd (fst r) = peak_index /\
     s_peak_candidates (snd r) = s_peak_candidates st).
Proof.
  intros signal L peak_index user_config st r code. subst code r.
  destruct signal as [sig |], peak_index as [out |];
    try (cbn; repeat split; intros; auto; try discriminate; try tauto;
         exfalso; tauto).
  destruct (Z.leb_spec L 0) as [Hle | Hpos];
    [| destruct (Z.ltb_spec MAX_SIGNAL_LENGTH L) as [Hgt | Hle]].
  - (* length <= 0 *)
    unfold find_prominent_peak_fp.
    destruct (Z.leb_spec L 0); [| lia]. cbn.
    repeat split; intros; auto; try discriminate; lia.
  - (* length > MAX_SIGNAL_LENGTH *)
    unfold find_prominent_peak_fp.
    destruct (Z.leb_spec L 0); [lia |].
    destruct (Z.gtb_spec L MAX_SIGNAL_LENGTH); [| lia]. cbn.
    repeat split; intros; auto; try discriminate; lia.
  - (* a valid length *)
    pose proof (find_prominent_peak_fp_shape sig L out user_config st
                  (conj Hpos Hle)) as Hshape.
    cbv zeta in Hshape.
    destruct (find_prominent_peak_fp (Some sig) L (Some out) user_config st)
      as [[c o] st'].
    cbn [fst snd] in *.
    destruct Hshape as [(Hs & [= -> ->] & Hp) | (Hb & [[= -> ->] | (b & [= -> ->])])].
    + repeat split; intros; try discriminate; auto; try lia.
      destruct H as [H | [H | H]]; try discriminate; lia.
    + repeat split; intros; try discriminate; try lia.
      destruct H as [H | [H | H]]; try discriminate; lia.
    + repeat split; intros; try discriminate; try lia.
      destruct H as [H | [H | H]]; try discriminate; lia.
Qed.

Lemma select_prominent_peak_frame (signal : list Z) (L : Z) (pk : list Z)
  (num : Z) (config : PeakConfigFP) (out : cell) (outp : option cell) :
  let r := select_prominent_peak signal L pk num config out outp in
  (fst (fst r) <> PEAK_FP_OK -> r = (PEAK_FP_NO_PEAK_FOUND, out, outp)) /\
  (fst (fst r) = PEAK_FP_OK ->
   exists best, snd (fst r) = store best out).
Proof.
  cbv zeta. unfold select_prominent_peak.
  destruct (select_loop _ _ _ _ _ _ _ _ _) as [mp bi].
  destruct (bi >=? 0); cbn [fst snd]; split; intros H;
    try reflexivity; try discriminate; try (exfalso; apply H; reflexivity).
  exists bi. reflexivity.
Qed.

(** C10: whenever [find_prominent_peak_fp] returns a code other than
    success the output location is exactly as before the call; on
    success it has received exactly one store, that of the selected
    index.  [select_prominent_peak], which performs the store, leaves
    both of its output locations untouched unless it returns success. *)
Theorem peak_index_written_only_on_success :
  forall (signal : option (list Z)) (length : Z) (peak_index : option cell)
         (user_config : option PeakConfigFP) (st : statics),
    let r := find_prominent_peak_fp signal length peak_index user_config st in
    let code := fst (fst r) in
    let peak_index' := snd (fst r) in
    (code <> PEAK_FP_OK -> peak_index' = peak_index) /\
    (code = PEAK_FP_OK ->
     exists out best,
       peak_index = Some out /\ peak_index' = Some (store best out) /\
       cell_stores (store best out) = S (cell_stores out)) /\
    (forall sq L pk num config out outp,
       fst (fst (select_prominent_peak sq L pk num config out outp)) <>
         PEAK_FP_OK ->
       snd (fst (select_prominent_peak sq L pk num config out outp)) = out /\
       snd (select_prominent_peak sq L pk num config out outp) = outp).
Proof.
  intros signal L peak_index user_config st r code peak_index'.
  subst code peak_index' r.
  split; [| split].
  - destruct signal as [sig |], peak_index as [out |]; try reflexivity.
    destruct (Z.leb_spec L 0) as [Hle | Hpos];
      [| destruct (Z.ltb_spec MAX_SIGNAL_LENGTH L) as [Hgt | Hle]].
    + unfold find_prominent_peak_fp. destruct (Z.leb_spec L 0); [| lia].
      reflexivity.
    + unfold find_prominent_peak_fp. destruct (Z.leb_spec L 0); [lia |].
      destruct (Z.gtb_spec L MAX_SIGNAL_LENGTH); [| lia]. reflexivity.
    + pose proof (find_prominent_peak_fp_shape sig L out user_config st
                    (conj Hpos Hle)) as Hshape.
      cbv zeta in Hshape.
      destruct Hshape as [(_ & E & _) | (_ & [E | (b & E)])]; rewrite E;
        cbn [fst snd]; intros H; try reflexivity.
      exfalso. apply H. reflexivity.
  - destruct signal as [sig |], peak_index as [out |]; try discriminate.
    destruct (Z.leb_spec L 0) as [Hle | Hpos];
      [| destruct (Z.ltb_spec MAX_SIGNAL_LENGTH L) as [Hgt | Hle]].
    + unfold find_prominent_peak_fp. destruct (Z.leb_spec L 0); [| lia].
      discriminate.
    + unfold find_prominent_peak_fp. destruct (Z.leb_spec L 0); [lia |].
      destruct (Z.gtb_spec L MAX_SIGNAL_LENGTH); [| lia]. discriminate.
    + pose proof (find_prominent_peak_fp_shape sig L out user_config st
                    (conj Hpos Hle)) as Hshape.
      cbv zeta in Hshape.
      destruct Hshape as [(_ & E & _) | (_ & [E | (b & E)])]; rewrite E;
        cbn [fst snd]; try discriminate.
      intros _. exists out, b. repeat split.
  - intros sq L' pk num config out outp H.
    destruct (select_prominent_peak_frame sq L' pk num config out outp)
      as [Hframe _].
    rewrite (Hframe H). split; reflexivity.
Qed.

(** C8: given scratch buffers of the documented sizes (at least [length]
    and MAX_PEAKS elements), [find_prominent_peak_fp_buffered] returns the
    same result code and leaves the same content in the output location
    as [find_prominent_peak_fp] on the same signal, length and
    configuration, whatever the static buffers held before. *)
Theorem buffered_entry_point_agrees :
  forall (signal : option (list Z)) (length : Z) (peak_index : option cell)
         (user_config : option PeakConfigFP) (st : statics)
         (sbuf pbuf : list Z),
    statics_sized st ->
    length <= Z.of_nat (List.length sbuf) ->
    MAX_PEAKS <= Z.of_nat (List.length pbuf) ->
    outcome_buffered
      (find_prominent_peak_fp_buffered signal length peak_index user_config
         (Some sbuf) (Some pbuf)) =
    outcome_fp
      (find_prominent_peak_fp signal length peak_index user_config st).
Proof.
  intros signal L peak_index user_config st sbuf pbuf Hst Hs Hp.
  destruct signal as [sig |], peak_index as [out |]; try reflexivity.
  destruct (Z.leb_spec L 0) as [Hle | Hpos];
    [| destruct (Z.ltb_spec MAX_SIGNAL_LENGTH L) as [Hgt | Hle]].
  - unfold find_prominent_peak_fp_buffered, find_prominent_peak_fp.
    destruct (Z.leb_spec L 0); [| lia]. reflexivity.
  - unfold find_prominent_peak_fp_buffered, find_prominent_peak_fp.
    destruct (Z.leb_spec L 0); [lia |].
    destruct (Z.gtb_spec L MAX_SIGNAL_LENGTH); [| lia]. reflexivity.
  - destruct (Z.ltb_spec L 3) as [Hsmall | Hbig].
    + unfold find_prominent_peak_fp_buffered, find_prominent_peak_fp,
        find_peak_candidates.
      destruct (Z.leb_spec L 0); [lia |].
      destruct (Z.gtb_spec L MAX_SIGNAL_LENGTH); [lia |].
      destruct (Z.ltb_spec L 3); [| lia]. reflexivity.
    + rewrite find_prominent_peak_fp_buffered_detect by lia.
      rewrite find_prominent_peak_fp_detect by (auto; lia).
      reflexivity.
Qed.

Lemma buffered_entry_point_agrees_witness :
  let signal := Some [10;40;70;80;60;40;70;100;50;20] in
  let out := Some (mkCell (-1) 0) in
  outcome_buffered
    (find_prominent_peak_fp_buffered signal 10 out None
       (Some (repeat 99 10)) (Some (repeat (-7) 32))) =
  outcome_fp (find_prominent_peak_fp signal 10 out None fresh_statics) /\
  outcome_fp (find_prominent_peak_fp signal 10 out None fresh_statics) =
  (PEAK_FP_OK, Some (mkCell 7 1)).
Proof.
  intros signal out. split; [| vm_compute; reflexivity].
  apply (buffered_entry_point_agrees signal 10 out None fresh_statics
           (repeat 99 10) (repeat (-7) 32)).
  - split; reflexivity.
  - vm_compute. discriminate.
  - vm_compute. discriminate.
Defined.

(** ** Reversing the signal *)




(** * Further properties of the code *)

(** ** Conversion *)

(** [to_q16] scales an int16_t sample by 2^16 without loss: the result
    fits 32 bits and the order of samples is kept. *)
Theorem to_q16_order_preserving :
  forall x y : Z,
    is_int16 x -> is_int16 y ->
    to_q16 x = x * 65536 /\ is_int32 (to_q16 x) /\
    (x < y <-> to_q16 x < to_q16 y) /\
    (x = y <-> to_q16 x = to_q16 y).
Proof.
  intros x y Hx Hy. rewrite !to_q16_exact by assumption.
  unfold is_int16, is_int32, INT16_MIN, INT16_MAX, INT32_MIN, INT32_MAX in *.
  repeat split; lia.
Qed.

Lemma to_q16_order_preserving_witness :
  is_int16 (-3) /\ is_int16 7 /\ to_q16 (-3) < to_q16 7.
Proof.
  assert (H3 : is_int16 (-3)) by (unfold is_int16; vm_compute; split; discriminate).
  assert (H7 : is_int16 7) by (unfold is_int16; vm_compute; split; discriminate).
  split; [exact H3 |]. split; [exact H7 |].
  destruct (to_q16_order_preserving (-3) 7 H3 H7) as (_ & _ & [Hlt _] & _).
  apply Hlt. reflexivity.
Defined.

(** Where the rounding bias does not carry the sum past INT32_MAX,
    [from_q16] returns the nearest integer (halves upwards) on every
    target: the result is within half a unit of the input and never
    saturates. *)
Theorem from_q16_rounds_to_nearest :
  forall (dm : data_model) (q : Z),
    is_int32 q -> q + Q16_HALF <= INT32_MAX ->
    from_q16 dm q = round_q16 q /\
    is_int16 (from_q16 dm q) /\
    - 32768 <= q - from_q16 dm q * 65536 < 32768.
Proof.
  intros dm q Hq Hfit.
  rewrite from_q16_when_sum_fits.
  - change Q16_HALF with 32768 in Hfit.
    unfold saturate16, round_q16.
    unfold is_int32, is_int16, INT32_MIN, INT32_MAX, INT16_MIN, INT16_MAX in *.
    assert (Hlo : -32768 <= (q + 32768) / 65536)
      by (apply Z.div_le_lower_bound; lia).
    assert (Hhi : (q + 32768) / 65536 <= 32767).
    { enough ((q + 32768) / 65536 < 32768) by lia.
      apply Z.div_lt_upper_bound; lia. }
    pose proof (Z.div_mod (q + 32768) 65536 ltac:(lia)) as Hdm.
    pose proof (Z.mod_pos_bound (q + 32768) 65536 ltac:(lia)) as Hmod.
    rewrite Z.min_r, Z.max_r by lia. repeat split; lia.
  - exact Hq.
  - unfold INT32_MAX in Hfit.
    destruct dm; cbn [long_bits].
    + change (2 ^ (32 - 1)) with 2147483648. lia.
    + change (2 ^ (64 - 1)) with 9223372036854775808. lia.
Qed.

Lemma from_q16_rounds_to_nearest_witness :
  from_q16 ILP32 98304 = 2 /\ from_q16 ILP32 98303 = 1.
Proof.
  split.
  - etransitivity;
      [exact (proj1 (from_q16_rounds_to_nearest ILP32 98304
                       ltac:(unfold is_int32; vm_compute; split; discriminate)
                       ltac:(vm_compute; discriminate))) |].
    reflexivity.
  - vm_compute. reflexivity.
Defined.

Lemma from_q16_ILP32_wraps_witness :
  from_q16 ILP32 (INT32_MAX - 32767) = INT16_MIN.
Proof.
  apply from_q16_ILP32_wraps. unfold INT32_MAX. lia.
Defined.

(** ** Gradient *)

Lemma aget_Forall (P : Z -> Prop) (a : list Z) (j : Z) :
  Forall P a -> 0 <= j < Z.of_nat (length a) -> P (aget a j).
Proof.
  intros Ha Hj. unfold aget. destruct (Z.ltb_spec j 0); [lia |].
  rewrite Forall_forall in Ha. apply Ha, nth_In. lia.
Qed.

Lemma gradient_converted (xs : list Z) (lo hi L i : Z) :
  is_int16 lo -> is_int16 hi -> hi - lo <= 32767 ->
  Forall (fun x => lo <= x <= hi) xs ->
  2 <= L <= Z.of_nat (length xs) -> 0 <= i < L ->
  let g := compute_gradient_at (map to_q16 xs) L i in
  (i = 0 -> g = (aget xs 1 - aget xs 0) * 65536) /\
  (i = L - 1 -> 0 < i ->
   g = (aget xs (L - 1) - aget xs (L - 2)) * 65536) /\
  (0 < i < L - 1 -> g = (aget xs (i + 1) - aget xs (i - 1)) * 32768).
Proof.
  intros Hlo Hhi Hspan Hall HL Hi g. subst g.
  assert (Hq : forall j, 0 <= j < L ->
             aget (map to_q16 xs) j = aget xs j * 65536 /\
             lo <= aget xs j <= hi).
  { intros j Hj. rewrite aget_map_to_q16.
    pose proof (aget_Forall _ xs j Hall ltac:(lia)) as Hb. cbv beta in Hb.
    split; [| exact Hb]. apply to_q16_exact.
    unfold is_int16, INT16_MIN, INT16_MAX in *. lia. }
  assert (Hsub : forall j k, 0 <= j < L -> 0 <= k < L ->
             sub32 (aget (map to_q16 xs) j) (aget (map to_q16 xs) k) =
             (aget xs j - aget xs k) * 65536).
  { intros j k Hj Hk. destruct (Hq j Hj) as [-> Bj].
    destruct (Hq k Hk) as [-> Bk]. rewrite sub32_exact; [lia |].
    unfold is_int32, INT32_MIN, INT32_MAX. lia. }
  unfold compute_gradient_at. repeat split.
  - intros ->. cbn [Z.eqb]. apply Hsub; lia.
  - intros HiL Hpos. destruct (Z.eqb_spec i 0); [lia |].
    destruct (Z.eqb_spec i (L - 1)); [| lia]. apply Hsub; lia.
  - intros Hint. destruct (Z.eqb_spec i 0); [lia |].
    destruct (Z.eqb_spec i (L - 1)); [lia |].
    rewrite Hsub by lia. rewrite Z.shiftr_div_pow2 by lia.
    change (2 ^ 1) with 2.
    replace ((aget xs (i + 1) - aget xs (i - 1)) * 65536)
      with ((aget xs (i + 1) - aget xs (i - 1)) * 32768 * 2) by lia.
    apply Z.div_mul. lia.
Qed.

(** On a converted signal whose samples lie within a window of at most
    32767 units, no gradient wraps and none is rounded: the boundary
    gradients are the sample differences and the interior ones exactly
    half the central difference, all in Q16.16. *)
Theorem gradient_of_converted_signal :
  forall (xs : list Z) (lo hi L i : Z),
    is_int16 lo -> is_int16 hi -> hi - lo <= 32767 ->
    Forall (fun x => lo <= x <= hi) xs ->
    2 <= L <= Z.of_nat (length xs) -> 0 <= i < L ->
    let g := compute_gradient_at (map to_q16 xs) L i in
    (i = 0 -> g = (aget xs 1 - aget xs 0) * 65536) /\
    (i = L - 1 -> 0 < i ->
     g = (aget xs (L - 1) - aget xs (L - 2)) * 65536) /\
    (0 < i < L - 1 -> g = (aget xs (i + 1) - aget xs (i - 1)) * 32768).
Proof. intros xs lo hi L i. apply gradient_converted. Qed.

Lemma gradient_of_converted_signal_witness :
  compute_gradient_at (map to_q16 [10; 15; 25]) 3 1 = 15 * 32768.
Proof.
  refine (proj2 (proj2 (gradient_of_converted_signal [10; 15; 25] 10 25 3 1
                          _ _ _ _ _ _)) _).
  - unfold is_int16; vm_compute; split; discriminate.
  - unfold is_int16; vm_compute; split; discriminate.
  - lia.
  - repeat constructor; lia.
  - cbn. lia.
  - lia.
  - lia.
Defined.

(** ** Prominence: where it vanishes and where it is positive *)

Lemma walk_left_le (s : list Z) (peak : Z) (fuel : nat) : forall i m,
  walk_left fuel s peak i m <= m.
Proof.
  induction fuel as [| fuel IH]; intros i m; cbn [walk_left]; [lia |].
  destruct (i >=? 0); [| lia]. destruct (aget s i >=? peak); [lia |].
  specialize (IH (i - 1) (if aget s i <? m then aget s i else m)).
  destruct (Z.ltb_spec (aget s i) m); lia.
Qed.

Lemma walk_right_le (s : list Z) (L peak : Z) (fuel : nat) : forall i m,
  walk_right fuel s L peak i m <= m.
Proof.
  induction fuel as [| fuel IH]; intros i m; cbn [walk_right]; [lia |].
  destruct (i <? L); [| lia]. destruct (aget s i >=? peak); [lia |].
  specialize (IH (i + 1) (if aget s i <? m then aget s i else m)).
  destruct (Z.ltb_spec (aget s i) m); lia.
Qed.

Lemma walk_left_blocked (s : list Z) (peak i m : Z) (fuel : nat) :
  i < 0 \/ aget s i >= peak -> walk_left fuel s peak i m = m.
Proof.
  intros H. destruct fuel as [| fuel]; cbn [walk_left]; [reflexivity |].
  destruct (Z.geb_spec i 0); [| reflexivity].
  destruct (Z.geb_spec (aget s i) peak); [reflexivity | lia].
Qed.

Lemma walk_right_blocked (s : list Z) (L peak i m : Z) (fuel : nat) :
  L <= i \/ aget s i >= peak -> walk_right fuel s L peak i m = m.
Proof.
  intros H. destruct fuel as [| fuel]; cbn [walk_right]; [reflexivity |].
  destruct (Z.ltb_spec i L); [| reflexivity].
  destruct (Z.geb_spec (aget s i) peak); [reflexivity | lia].
Qed.

Lemma sub32_diag (a : Z) : sub32 a a = 0.
Proof. unfold sub32. rewrite Z.sub_diag. reflexivity. Qed.

Lemma prominence_blocked (s : list Z) (L idx : Z) :
  0 <= idx < L ->
  idx = 0 \/ aget s (idx - 1) >= aget s idx \/
  idx = L - 1 \/ aget s (idx + 1) >= aget s idx ->
  calculate_topological_prominence s L idx = 0.
Proof.
  intros Hidx Hcase. unfold calculate_topological_prominence.
  set (peak := aget s idx).
  pose proof (walk_left_le s peak (Z.to_nat idx) (idx - 1) peak) as Hl.
  pose proof (walk_right_le s L peak (Z.to_nat (L - (idx + 1))) (idx + 1) peak)
    as Hr.
  assert (Hside :
    walk_left (Z.to_nat idx) s peak (idx - 1) peak = peak \/
    walk_right (Z.to_nat (L - (idx + 1))) s L peak (idx + 1) peak = peak).
  { destruct Hcase as [H | [H | [H | H]]].
    - left. apply walk_left_blocked. lia.
    - left. apply walk_left_blocked. right. exact H.
    - right. apply walk_right_blocked. lia.
    - right. apply walk_right_blocked. right. exact H. }
  rewrite select_max.
  replace (Z.max _ _) with peak by (destruct Hside; lia).
  apply sub32_diag.
Qed.

(** A sample at either end of the signal, or with an immediate neighbour
    at least as high, has prominence exactly 0: the walk on that side
    contributes the peak value itself as its minimum. *)
Theorem prominence_zero_without_strict_neighbours :
  forall (signal_q16 : list Z) (L idx : Z),
    0 <= idx < L ->
    idx = 0 \/ aget signal_q16 (idx - 1) >= aget signal_q16 idx \/
    idx = L - 1 \/ aget signal_q16 (idx + 1) >= aget signal_q16 idx ->
    calculate_topological_prominence signal_q16 L idx = 0.
Proof. intros s L idx. apply prominence_blocked. Qed.

Lemma prominence_zero_without_strict_neighbours_witness :
  calculate_topological_prominence (map to_q16 [0; 20; 20; 0]) 4 1 = 0.
Proof.
  apply prominence_zero_without_strict_neighbours; [lia |].
  right. right. right. vm_compute. discriminate.
Defined.

Lemma left_side_minimum_le_neighbour (s : list Z) (p : nat) :
  (S p < length s)%nat -> nth p s 0 < nth (S p) s 0 ->
  left_side_minimum s (S p) <= nth p s 0.
Proof.
  intros Hp Hlt. unfold left_side_minimum.
  rewrite firstn_snoc, rev_app_distr by lia. cbn [rev app below_peak_run].
  destruct (Z.ltb_spec (nth p s 0) (nth (S p) s 0)); [| lia].
  unfold running_min. cbn [fold_left].
  pose proof (running_min_le_start
                (below_peak_run (nth (S p) s 0) (rev (firstn p s)))
                (Z.min (nth (S p) s 0) (nth p s 0))) as H0.
  unfold running_min in H0. lia.
Qed.

Lemma right_side_minimum_le_neighbour (s : list Z) (p : nat) :
  (S p < length s)%nat -> nth (S p) s 0 < nth p s 0 ->
  right_side_minimum s p <= nth (S p) s 0.
Proof.
  intros Hp Hlt. unfold right_side_minimum.
  rewrite (skipn_cons_nth s (S p)) by lia. cbn [below_peak_run].
  destruct (Z.ltb_spec (nth (S p) s 0) (nth p s 0)); [| lia].
  unfold running_min. cbn [fold_left].
  pose proof (running_min_le_start
                (below_peak_run (nth p s 0) (skipn (S (S p)) s))
                (Z.min (nth p s 0) (nth (S p) s 0))) as H0.
  unfold running_min in H0. lia.
Qed.

(** A strict interior local maximum of a signal whose samples span less
    than 2^31 has a positive prominence: at least its drop to the higher
    of its two neighbours, at most its height above the lowest sample. *)
Theorem prominence_of_strict_local_maximum :
  forall (signal_q16 : list Z) (lo hi : Z) (p : nat),
    (S (S p) < length signal_q16)%nat ->
    Forall (fun v => lo <= v <= hi) signal_q16 ->
    hi - lo <= INT32_MAX ->
    nth p signal_q16 0 < nth (S p) signal_q16 0 ->
    nth (S (S p)) signal_q16 0 < nth (S p) signal_q16 0 ->
    let prominence :=
      calculate_topological_prominence signal_q16
        (Z.of_nat (length signal_q16)) (Z.of_nat (S p)) in
    0 < nth (S p) signal_q16 0 -
        Z.max (nth p signal_q16 0) (nth (S (S p)) signal_q16 0)
      <= prominence /\
    prominence <= nth (S p) signal_q16 0 - lo.
Proof.
  intros s lo hi p Hp Hall Hspan Hleft Hright prominence. subst prominence.
  rewrite prominence_unfold by lia.
  assert (Hlow : lo <= reference_level s (S p)).
  { apply reference_level_lower_bound; [lia |].
    eapply Forall_impl; [| exact Hall]. cbv beta. intros; lia. }
  assert (Hpk : nth (S p) s 0 <= hi).
  { rewrite Forall_forall in Hall.
    apply (Hall _ (nth_In s 0 (n := S p) ltac:(lia))). }
  pose proof (reference_level_le_peak s (S p)) as Hle.
  pose proof (left_side_minimum_le_neighbour s p ltac:(lia) Hleft) as Hl.
  pose proof (right_side_minimum_le_neighbour s (S p) Hp Hright) as Hr.
  rewrite sub32_exact by (unfold is_int32, INT32_MIN, INT32_MAX in *; lia).
  unfold reference_level in *. lia.
Qed.

Lemma prominence_of_strict_local_maximum_witness :
  let s := map to_q16 [10;40;70;80;60;40;70;100;50;20] in
  to_q16 10 <= calculate_topological_prominence s 10 3 <= to_q16 70.
Proof.
  intros s.
  destruct (prominence_of_strict_local_maximum s (to_q16 10) (to_q16 100) 2)
    as [Hlo Hhi].
  - vm_compute. lia.
  - repeat constructor; vm_compute; discriminate.
  - vm_compute. discriminate.
  - vm_compute. reflexivity.
  - vm_compute. reflexivity.
  - split.
    + eapply Z.le_trans; [| apply Hlo]. vm_compute. discriminate.
    + eapply Z.le_trans; [apply Hhi |]. vm_compute. discriminate.
Defined.

(** ** What the public entry point reports *)

Lemma detect_cases (sq : list Z) (L : Z) (config : PeakConfigFP) :
  let cands := expected_candidates sq L config MAX_PEAKS in
  let prom := calculate_topological_prominence sq L in
  let t := prominence_threshold_q16 config in
  (exists k,
     first_most_prominent prom t cands k /\
     INT32_MIN < prom (nth k cands 0) /\
     detect sq L config = Some (nth k cands 0)) \/
  ((forall c, In c cands -> prom c < t \/ prom c = INT32_MIN) /\
   detect sq L config = None).
Proof.
  cbv zeta. unfold detect.
  pose proof (select_fold_spec sq L config
                (expected_candidates sq L config MAX_PEAKS) INT32_MIN (-1))
    as Hspec.
  cbv zeta in Hspec.
  destruct Hspec as [[E Hnone] | (k & Hk & Hgt & E)]; rewrite E; cbn [snd].
  - right. split; [| reflexivity]. intros c Hc. specialize (Hnone c Hc).
    pose proof (prominence_int32 sq L c) as Hr. unfold is_int32 in Hr. lia.
  - left. exists k. split; [exact Hk |]. split; [exact Hgt |].
    assert (Hin : In (nth k (expected_candidates sq L config MAX_PEAKS) 0)
                     (expected_candidates sq L config MAX_PEAKS))
      by (apply nth_In, Hk).
    apply expected_candidates_range in Hin.
    destruct (Z.geb_spec
                (nth k (expected_candidates sq L config MAX_PEAKS) 0) 0);
      [reflexivity | lia].
Qed.

(** Success of [find_prominent_peak_fp] fixes the length range and the
    detection result. *)
Lemma success_detect (sig : list Z) (L : Z) (out : cell)
  (user_config : option PeakConfigFP) (st : statics) (i : Z) :
  statics_sized st ->
  outcome_fp (find_prominent_peak_fp (Some sig) L (Some out) user_config st) =
    (PEAK_FP_OK, Some (store i out)) ->
  3 <= L <= MAX_SIGNAL_LENGTH /\
  detect (map to_q16 sig) L (effective_config user_config) = Some i.
Proof.
  intros Hst Hok.
  destruct (Z.leb_spec L 0) as [Hle | Hpos];
    [| destruct (Z.ltb_spec MAX_SIGNAL_LENGTH L) as [Hgt | Hle]].
  - exfalso. revert Hok. unfold find_prominent_peak_fp, outcome_fp.
    destruct (Z.leb_spec L 0); [| lia]. discriminate.
  - exfalso. revert Hok. unfold find_prominent_peak_fp, outcome_fp.
    destruct (Z.leb_spec L 0); [lia |].
    destruct (Z.gtb_spec L MAX_SIGNAL_LENGTH); [| lia]. discriminate.
  - destruct (Z.ltb_spec L 3) as [Hsmall | Hbig].
    + exfalso.
      destruct (find_prominent_peak_fp_shape sig L out user_config st
                  (conj Hpos Hle)) as [(_ & E & _) | (Hb & _)]; [| lia].
      unfold outcome_fp in Hok. rewrite E in Hok. discriminate.
    + split; [lia |].
      rewrite find_prominent_peak_fp_detect in Hok by (auto; lia).
      destruct (detect _ _ _) as [best |]; [| discriminate].
      cbn [outcome_of] in Hok. injection Hok as Hbest. subst best.
      reflexivity.
Qed.

(** When [find_prominent_peak_fp] succeeds with index i, i is one of the
    first MAX_PEAKS candidates of the converted signal: an interior index
    that passes the shape test, whose sample is above the noise floor,
    whose prominence meets the threshold and is not exceeded by that of
    any other of those candidates. *)
Theorem find_prominent_peak_fp_success :
  forall (sig : list Z) (user_config : option PeakConfigFP) (st : statics)
         (out : cell) (i : Z),
    statics_sized st ->
    let L := Z.of_nat (length sig) in
    outcome_fp (find_prominent_peak_fp (Some sig) L (Some out) user_config st)
      = (PEAK_FP_OK, Some (store i out)) ->
    let sq := map to_q16 sig in
    let config := effective_config user_config in
    let prom := calculate_topological_prominence sq L in
    3 <= L <= MAX_SIGNAL_LENGTH /\ 1 <= i <= L - 2 /\
    In i (expected_candidates sq L config MAX_PEAKS) /\
    is_candidate sq L config i = true /\
    noise_floor_q16 config < to_q16 (aget sig i) /\
    prominence_threshold_q16 config <= prom i /\
    (forall j, In j (expected_candidates sq L config MAX_PEAKS) ->
               prom j <= prom i).
Proof.
  intros sig user_config st out i Hst L Hok sq config prom.
  destruct (success_detect sig L out user_config st i Hst Hok) as [HL Hd].
  fold sq config in Hd.
  destruct (detect_cases sq L config) as [(k & Hk & Hgt & E) | [_ E]];
    rewrite E in Hd; [| discriminate].
  injection Hd as Hi.
  destruct Hk as (Hlen & Ht & Hmax & _). rewrite Hi in *.
  assert (Hin : In i (expected_candidates sq L config MAX_PEAKS))
    by (rewrite <- Hi; apply nth_In, Hlen).
  assert (Hcand : 1 <= i <= L - 2 /\ is_candidate sq L config i = true)
    by (apply all_candidates_In, In_firstn with (n := Z.to_nat MAX_PEAKS), Hin).
  destruct Hcand as [Hrange Hc].
  split; [exact HL |]. split; [exact Hrange |]. split; [exact Hin |].
  split; [exact Hc |]. split; [| split; [exact Ht |]].
  - unfold is_candidate in Hc.
    apply andb_prop in Hc as [Hc _]. apply andb_prop in Hc as [_ Hn].
    apply Z.ltb_lt in Hn. unfold sq in Hn. rewrite aget_map_to_q16 in Hn.
    exact Hn.
  - intros j Hj.
    destruct (In_nth _ _ 0 Hj) as (n & Hn & <-).
    destruct (Z.le_gt_cases (prominence_threshold_q16 config)
                (prom (nth n (expected_candidates sq L config MAX_PEAKS) 0)))
      as [Hge | Hlt].
    + apply Hmax; assumption.
    + fold prom in Ht. lia.
Qed.

Lemma find_prominent_peak_fp_success_witness :
  let sig := [10;40;70;80;60;40;70;100;50;20] in
  let prom := calculate_topological_prominence (map to_q16 sig) 10 in
  In 7 (expected_candidates (map to_q16 sig) 10 default_config_fp MAX_PEAKS) /\
  PROMINENCE_THRESHOLD_Q16 <= prom 7 /\ prom 3 <= prom 7.
Proof.
  intros sig prom.
  assert (Hok : outcome_fp (find_prominent_peak_fp (Some sig)
                  (Z.of_nat (length sig)) (Some (mkCell (-1) 0)) None
                  fresh_statics) = (PEAK_FP_OK, Some (store 7 (mkCell (-1) 0))))
    by (vm_compute; reflexivity).
  destruct (find_prominent_peak_fp_success sig None fresh_statics
              (mkCell (-1) 0) 7 (conj eq_refl eq_refl) Hok)
    as (_ & _ & Hin & _ & _ & Ht & Hmax).
  split; [exact Hin |]. split; [exact Ht |].
  apply Hmax. vm_compute. left. reflexivity.
Defined.

(** For a valid length of at least 3 and a threshold above INT32_MIN,
    "no peak found" is returned exactly when none of the first MAX_PEAKS
    candidates has a prominence that meets the threshold; the output
    location is then left as it was. *)
Theorem no_peak_found_iff :
  forall (sig : list Z) (L : Z) (user_config : option PeakConfigFP)
         (st : statics) (out : cell),
    statics_sized st -> 3 <= L <= MAX_SIGNAL_LENGTH ->
    INT32_MIN < prominence_threshold_q16 (effective_config user_config) ->
    let sq := map to_q16 sig in
    let config := effective_config user_config in
    let r := outcome_fp
               (find_prominent_peak_fp (Some sig) L (Some out) user_config st) in
    (fst r = PEAK_FP_NO_PEAK_FOUND <->
     forall c, In c (expected_candidates sq L config MAX_PEAKS) ->
       calculate_topological_prominence sq L c <
       prominence_threshold_q16 config) /\
    (fst r = PEAK_FP_NO_PEAK_FOUND -> snd r = Some out).
Proof.
  intros sig L user_config st out Hst HL Ht sq config r. subst r.
  rewrite find_prominent_peak_fp_detect by assumption. fold sq config.
  destruct (detect_cases sq L config) as [(k & Hk & Hgt & E) | [Hnone E]];
    rewrite E; cbn [outcome_of fst snd].
  - split; [| discriminate]. split; [discriminate |].
    intros Hall. exfalso. destruct Hk as (Hlen & Hkt & _).
    specialize (Hall _ (nth_In _ 0 Hlen)). fold config in Ht. lia.
  - split; [| reflexivity]. split; [| reflexivity].
    intros _ c Hc. specialize (Hnone c Hc). fold config in Ht. lia.
Qed.

Lemma no_peak_found_iff_witness :
  let sig := [50; 50; 50; 50; 50] in
  fst (outcome_fp (find_prominent_peak_fp (Some sig) 5 (Some (mkCell (-1) 0))
                     None fresh_statics)) = PEAK_FP_NO_PEAK_FOUND.
Proof.
  intros sig.
  destruct (no_peak_found_iff sig 5 None fresh_statics (mkCell (-1) 0))
    as [[_ Hback] _].
  - split; reflexivity.
  - vm_compute. split; discriminate.
  - vm_compute. reflexivity.
  - apply Hback. intros c Hc. vm_compute in Hc. destruct Hc.
Defined.

Lemma to_q16_le (x y : Z) :
  is_int16 x -> is_int16 y -> x >= y -> to_q16 x >= to_q16 y.
Proof.
  intros Hx Hy Hge. rewrite !to_q16_exact by assumption. lia.
Qed.

Lemma is_int16_0 : is_int16 0.
Proof. unfold is_int16, INT16_MIN, INT16_MAX. lia. Qed.

Lemma aget_int16 (sig : list Z) (j : Z) :
  Forall is_int16 sig -> is_int16 (aget sig j).
Proof.
  intros Hall. unfold aget. destruct (j <? 0); [apply is_int16_0 |].
  destruct (Nat.lt_ge_cases (Z.to_nat j) (length sig)) as [Hlt | Hge].
  - rewrite Forall_forall in Hall. apply Hall, nth_In, Hlt.
  - rewrite nth_overflow by exact Hge. apply is_int16_0.
Qed.

(** With a positive prominence threshold, the index that
    [find_prominent_peak_fp] reports is a strict local maximum of the
    int16_t samples: both neighbours are strictly lower. *)
Theorem reported_peak_is_strict_local_maximum :
  forall (sig : list Z) (user_config : option PeakConfigFP) (st : statics)
         (out : cell) (i : Z),
    statics_sized st -> Forall is_int16 sig ->
    0 < prominence_threshold_q16 (effective_config user_config) ->
    let L := Z.of_nat (length sig) in
    outcome_fp (find_prominent_peak_fp (Some sig) L (Some out) user_config st)
      = (PEAK_FP_OK, Some (store i out)) ->
    1 <= i <= L - 2 /\
    aget sig (i - 1) < aget sig i /\ aget sig (i + 1) < aget sig i.
Proof.
  intros sig user_config st out i Hst H16 Ht L Hok.
  destruct (success_detect sig L out user_config st i Hst Hok) as [HL Hd].
  set (sq := map to_q16 sig) in *.
  set (config := effective_config user_config) in *.
  destruct (detect_cases sq L config) as [(k & Hk & _ & E) | [_ E]];
    rewrite E in Hd; [| discriminate].
  injection Hd as Hi. destruct Hk as (Hlen & Hkt & _). rewrite Hi in *.
  assert (Hrange : 1 <= i <= L - 2).
  { apply (expected_candidates_range sq L config MAX_PEAKS).
    rewrite <- Hi. apply nth_In, Hlen. }
  split; [exact Hrange |].
  assert (Hnot : forall j, j = i - 1 \/ j = i + 1 ->
                   ~ aget sig j >= aget sig i).
  { intros j Hj Hge.
    assert (Hq : aget sq j >= aget sq i).
    { unfold sq. rewrite !aget_map_to_q16.
      apply to_q16_le; auto using aget_int16. }
    assert (H0 : calculate_topological_prominence sq L i = 0).
    { apply prominence_blocked; [lia |].
      destruct Hj as [-> | ->]; [right; left | right; right; right]; exact Hq. }
    lia. }
  pose proof (Hnot (i - 1) (or_introl eq_refl)).
  pose proof (Hnot (i + 1) (or_intror eq_refl)). lia.
Qed.

Lemma reported_peak_is_strict_local_maximum_witness :
  let sig := [10;40;70;80;60;40;70;100;50;20] in
  aget sig 6 < aget sig 7 /\ aget sig 8 < aget sig 7.
Proof.
  intros sig.
  assert (Hok : outcome_fp (find_prominent_peak_fp (Some sig)
                  (Z.of_nat (length sig)) (Some (mkCell (-1) 0)) None
                  fresh_statics) = (PEAK_FP_OK, Some (store 7 (mkCell (-1) 0))))
    by (vm_compute; reflexivity).
  refine (proj2 (reported_peak_is_strict_local_maximum sig None fresh_statics
                   (mkCell (-1) 0) 7 (conj eq_refl eq_refl) _ _ Hok)).
  - repeat constructor; vm_compute; discriminate.
  - vm_compute. reflexivity.
Defined.

(** A signal without a strict interior local maximum (a monotone ramp, a
    flat line, a flat-topped bump) yields "no peak found" under every
    configuration with a positive prominence threshold. *)
Theorem no_strict_local_maximum_no_peak :
  forall (sig : list Z) (user_config : option PeakConfigFP) (st : statics)
         (out : cell),
    statics_sized st -> Forall is_int16 sig ->
    0 < prominence_threshold_q16 (effective_config user_config) ->
    let L := Z.of_nat (length sig) in
    3 <= L <= MAX_SIGNAL_LENGTH ->
    (forall i, 1 <= i <= L - 2 ->
       aget sig (i - 1) >= aget sig i \/ aget sig (i + 1) >= aget sig i) ->
    outcome_fp (find_prominent_peak_fp (Some sig) L (Some out) user_config st)
      = (PEAK_FP_NO_PEAK_FOUND, Some out).
Proof.
  intros sig user_config st out Hst H16 Ht L HL Hflat.
  rewrite find_prominent_peak_fp_detect by assumption.
  set (sq := map to_q16 sig) in *.
  set (config := effective_config user_config) in *.
  destruct (detect_cases sq L config) as [(k & Hk & _ & E) | [_ E]];
    rewrite E; [| reflexivity].
  exfalso. destruct Hk as (Hlen & Hkt & _).
  set (c := nth k (expected_candidates sq L config MAX_PEAKS) 0) in *.
  assert (Hrange : 1 <= c <= L - 2).
  { apply (expected_candidates_range sq L config MAX_PEAKS).
    apply nth_In, Hlen. }
  assert (H0 : calculate_topological_prominence sq L c = 0).
  { apply prominence_blocked; [lia |].
    destruct (Hflat c Hrange) as [H | H]; [right; left | right; right; right];
      unfold sq; rewrite !aget_map_to_q16;
      apply to_q16_le; auto using aget_int16. }
  lia.
Qed.

Lemma no_strict_local_maximum_no_peak_witness :
  outcome_fp (find_prominent_peak_fp (Some [20; 40; 60; 80; 100]) 5
                (Some (mkCell (-1) 0)) None fresh_statics)
  = (PEAK_FP_NO_PEAK_FOUND, Some (mkCell (-1) 0)).
Proof.
  apply (no_strict_local_maximum_no_peak [20; 40; 60; 80; 100] None
           fresh_statics (mkCell (-1) 0)).
  - split; reflexivity.
  - repeat constructor; vm_compute; discriminate.
  - vm_compute. reflexivity.
  - vm_compute. split; discriminate.
  - intros i Hi. right.
    assert (Hc : i = 1 \/ i = 2 \/ i = 3) by (cbn in Hi; lia).
    destruct Hc as [-> | [-> | ->]]; vm_compute; discriminate.
Defined.

(** A constant signal has no candidate at all, so it yields "no peak
    found" under every configuration, whatever the thresholds. *)
Theorem constant_signal_no_peak :
  forall (sig : list Z) (v L : Z) (user_config : option PeakConfigFP)
         (st : statics) (out : cell),
    statics_sized st -> 3 <= L <= MAX_SIGNAL_LENGTH ->
    (forall j, 0 <= j < L -> aget sig j = v) ->
    all_candidates (map to_q16 sig) L (effective_config user_config) = [] /\
    outcome_fp (find_prominent_peak_fp (Some sig) L (Some out) user_config st)
      = (PEAK_FP_NO_PEAK_FOUND, Some out).
Proof.
  intros sig v L user_config st out Hst HL Hconst.
  set (sq := map to_q16 sig). set (config := effective_config user_config).
  assert (Hq : forall j, 0 <= j < L -> aget sq j = to_q16 v).
  { intros j Hj. unfold sq. rewrite aget_map_to_q16, Hconst by lia.
    reflexivity. }
  assert (Hg : forall j, 0 <= j < L -> gradient sq L j = 0).
  { intros j Hj. unfold gradient.
    destruct (Z.eqb_spec j 0); [rewrite !Hq by lia; apply sub32_diag |].
    destruct (Z.eqb_spec j (L - 1)); rewrite !Hq by lia; rewrite sub32_diag;
      reflexivity. }
  assert (Hnil : all_candidates sq L config = []).
  { unfold all_candidates.
    rewrite (filter_ext_in _ (fun _ => false)); [induction (interior_indices L); auto |].
    intros i Hi. apply zrange_In in Hi.
    unfold is_candidate, zero_crossing, local_maximum.
    rewrite (Hg (i - 1)), !Hq by lia.
    rewrite !Z.ltb_irrefl. reflexivity. }
  split; [exact Hnil |].
  rewrite find_prominent_peak_fp_detect by assumption. fold sq config.
  unfold detect, expected_candidates. rewrite Hnil, firstn_nil. reflexivity.
Qed.

Lemma constant_signal_no_peak_witness :
  outcome_fp (find_prominent_peak_fp (Some [50; 50; 50; 50; 50]) 5
                (Some (mkCell (-1) 0))
                (Some (mkPeakConfigFP (-5) 0 0)) fresh_statics)
  = (PEAK_FP_NO_PEAK_FOUND, Some (mkCell (-1) 0)).
Proof.
  refine (proj2 (constant_signal_no_peak [50; 50; 50; 50; 50] 50 5
                   (Some (mkPeakConfigFP (-5) 0 0)) fresh_statics
                   (mkCell (-1) 0) _ _ _)).
  - split; reflexivity.
  - vm_compute. split; discriminate.
  - intros j Hj.
    assert (Hc : j = 0 \/ j = 1 \/ j = 2 \/ j = 3 \/ j = 4) by lia.
    destruct Hc as [-> | [-> | [-> | [-> | ->]]]]; reflexivity.
Defined.

(** ** The static buffers across calls *)

Lemma outcome_fp_invalid_length (sig : list Z) (L : Z) (out : cell)
  (user_config : option PeakConfigFP) (st : statics) :
  L <= 0 \/ MAX_SIGNAL_LENGTH < L ->
  find_prominent_peak_fp (Some sig) L (Some out) user_config st =
  (PEAK_FP_INVALID_INPUT, Some out, st).
Proof.
  intros H. unfold find_prominent_peak_fp.
  destruct (Z.leb_spec L 0); [reflexivity |].
  destruct (Z.gtb_spec L MAX_SIGNAL_LENGTH); [reflexivity | lia].
Qed.

Lemma find_prominent_peak_fp_statics (sig : list Z) (L : Z) (out : cell)
  (user_config : option PeakConfigFP) (st : statics) :
  0 < L <= MAX_SIGNAL_LENGTH ->
  let sq := convert_loop (Z.to_nat L) sig L 0 (s_signal_q16 st) in
  snd (find_prominent_peak_fp (Some sig) L (Some out) user_config st) =
  mkStatics sq
    (snd (fst (find_peak_candidates sq L (effective_config user_config)
                 (s_peak_candidates st) MAX_PEAKS))).
Proof.
  intros HL. cbv zeta. unfold find_prominent_peak_fp.
  fold (effective_config user_config).
  destruct (Z.leb_spec L 0); [lia |].
  destruct (Z.gtb_spec L MAX_SIGNAL_LENGTH); [lia |]. cbn [orb].
  destruct (find_peak_candidates _ _ _ _ _) as [[r pk] num]. cbn [fst snd].
  destruct (negb (PeakResultFP_eqb r PEAK_FP_OK)); [reflexivity |].
  destruct (num =? 0); [reflexivity |].
  destruct (select_prominent_peak _ _ _ _ _ _ _) as [[r' o] p]. reflexivity.
Qed.

Lemma scan_loop_length (s : list Z) (L : Z) (config : PeakConfigFP)
  (max_peaks : Z) (fuel : nat) : forall i g pk count,
  length (fst (scan_loop fuel s L config max_peaks i g pk count)) = length pk.
Proof.
  induction fuel as [| fuel IH]; intros i g pk count; cbn [scan_loop];
    [reflexivity |].
  destruct (i <? L - 1); [| reflexivity].
  destruct (peak_conditions _ _ _ _ _); [| apply IH].
  destruct (count <? max_peaks); [| reflexivity].
  rewrite IH. apply aset_length.
Qed.

Lemma find_peak_candidates_length (s : list Z) (L : Z) (config : PeakConfigFP)
  (pk : list Z) (max_peaks : Z) :
  length (snd (fst (find_peak_candidates s L config pk max_peaks))) = length pk.
Proof.
  unfold find_peak_candidates. destruct (L <? 3); [reflexivity |].
  pose proof (scan_loop_length s L config max_peaks (Z.to_nat (L - 2)) 1
                (compute_gradient_at s L 0) pk 0) as H.
  destruct (scan_loop _ _ _ _ _ _ _ _ _) as [pk' num]. exact H.
Qed.

Lemma convert_loop_frame (signal : list Z) (L : Z) (fuel : nat) : forall i buf,
  0 <= i ->
  forall j, j < i \/ L <= j ->
    aget (convert_loop fuel signal L i buf) j = aget buf j.
Proof.
  induction fuel as [| fuel IH]; intros i buf Hi j Hj; cbn [convert_loop];
    [reflexivity |].
  destruct (Z.ltb_spec i L); [| reflexivity].
  rewrite IH by lia. apply aget_aset_other. lia.
Qed.

(** Whatever the static buffers held before a call, the result code and
    the content left in the output location are the same: nothing of an
    earlier call leaks into a later one. *)
Theorem result_independent_of_static_state :
  forall (signal : option (list Z)) (length : Z) (peak_index : option cell)
         (user_config : option PeakConfigFP) (st1 st2 : statics),
    statics_sized st1 -> statics_sized st2 ->
    outcome_fp (find_prominent_peak_fp signal length peak_index user_config st1)
    = outcome_fp
        (find_prominent_peak_fp signal length peak_index user_config st2).
Proof.
  intros signal L peak_index user_config st1 st2 H1 H2.
  destruct signal as [sig |], peak_index as [out |]; try reflexivity.
  destruct (Z.leb_spec L 0) as [Hle | Hpos];
    [| destruct (Z.ltb_spec MAX_SIGNAL_LENGTH L) as [Hgt | Hle]].
  - rewrite !outcome_fp_invalid_length by lia. reflexivity.
  - rewrite !outcome_fp_invalid_length by lia. reflexivity.
  - destruct (Z.ltb_spec L 3) as [Hsmall | Hbig].
    + unfold find_prominent_peak_fp, find_peak_candidates.
      destruct (Z.leb_spec L 0); [lia |].
      destruct (Z.gtb_spec L MAX_SIGNAL_LENGTH); [lia |].
      destruct (Z.ltb_spec L 3); [| lia]. reflexivity.
    + rewrite !find_prominent_peak_fp_detect by (auto; lia). reflexivity.
Qed.

Lemma result_independent_of_static_state_witness :
  let stale := mkStatics (repeat 123456 512) (repeat 9 32) in
  outcome_fp (find_prominent_peak_fp (Some [0;10;5;20;5;15;0]) 7
                (Some (mkCell (-1) 0)) None stale) =
  (PEAK_FP_OK, Some (mkCell 3 1)).
Proof.
  intros stale.
  etransitivity;
    [apply (result_independent_of_static_state (Some [0;10;5;20;5;15;0]) 7
              (Some (mkCell (-1) 0)) None stale fresh_statics);
     split; reflexivity |].
  vm_compute. reflexivity.
Defined.

Lemma statics_after_call (signal : option (list Z)) (L : Z)
  (peak_index : option cell) (user_config : option PeakConfigFP)
  (st : statics) :
  statics_sized st ->
  let r := find_prominent_peak_fp signal L peak_index user_config st in
  statics_sized (snd r) /\
  (fst (fst r) = PEAK_FP_INVALID_INPUT -> snd r = st) /\
  (fst (fst r) <> PEAK_FP_INVALID_INPUT ->
   forall sig, signal = Some sig ->
     (forall j, 0 <= j < L ->
        aget (s_signal_q16 (snd r)) j = to_q16 (aget sig j)) /\
     (forall j, L <= j ->
        aget (s_signal_q16 (snd r)) j = aget (s_signal_q16 st) j)).
Proof.
  intros Hst r. subst r.
  destruct signal as [sig |], peak_index as [out |];
    try (cbn; split; [exact Hst |]; split; [reflexivity |];
         intros H; exfalso; apply H; reflexivity).
  destruct (Z.leb_spec L 0) as [Hle | Hpos];
    [| destruct (Z.ltb_spec MAX_SIGNAL_LENGTH L) as [Hgt | Hle]].
  - rewrite outcome_fp_invalid_length by lia. cbn.
    split; [exact Hst |]. split; [reflexivity |].
    intros H; exfalso; apply H; reflexivity.
  - rewrite outcome_fp_invalid_length by lia. cbn.
    split; [exact Hst |]. split; [reflexivity |].
    intros H; exfalso; apply H; reflexivity.
  - pose proof (find_prominent_peak_fp_statics sig L out user_config st
                  (conj Hpos Hle)) as Hs. cbv zeta in Hs.
    destruct Hst as [Hsig Hpk].
    destruct (convert_loop_spec sig L (Z.to_nat L) 0 (s_signal_q16 st))
      as (Elen & Econv & _); try lia.
    rewrite Hs. cbn [s_signal_q16 s_peak_candidates].
    split; [| split].
    + split; cbn [s_signal_q16 s_peak_candidates].
      * rewrite Elen. exact Hsig.
      * rewrite find_peak_candidates_length. exact Hpk.
    + intros Hinv. exfalso.
      destruct (find_prominent_peak_fp_shape sig L out user_config st
                  (conj Hpos Hle)) as [(_ & E & _) | (_ & [E | (b & E)])];
        cbv zeta in E; rewrite E in Hinv; discriminate.
    + intros _ sig' [= <-]. split.
      * intros j Hj. apply Econv. lia.
      * intros j Hj. apply convert_loop_frame; lia.
Qed.

(** Every call keeps the two static buffers at their declared sizes.  A
    call rejected as invalid input leaves them untouched; any other call
    overwrites the first [length] entries of the signal buffer with the
    converted samples and leaves the entries behind them as they were. *)
Theorem static_buffers_after_call :
  forall (signal : option (list Z)) (length : Z) (peak_index : option cell)
         (user_config : option PeakConfigFP) (st : statics),
    statics_sized st ->
    let r := find_prominent_peak_fp signal length peak_index user_config st in
    statics_sized (snd r) /\
    (fst (fst r) = PEAK_FP_INVALID_INPUT -> snd r = st) /\
    (fst (fst r) <> PEAK_FP_INVALID_INPUT ->
     forall sig, signal = Some sig ->
       (forall j, 0 <= j < length ->
          aget (s_signal_q16 (snd r)) j = to_q16 (aget sig j)) /\
       (forall j, length <= j ->
          aget (s_signal_q16 (snd r)) j = aget (s_signal_q16 st) j)).
Proof.
  intros signal L peak_index user_config st. apply statics_after_call.
Qed.

Lemma static_buffers_after_call_witness :
  let st := mkStatics (repeat 77 512) (repeat 9 32) in
  let r := find_prominent_peak_fp (Some [1; 2; 3]) 3 (Some (mkCell (-1) 0))
             None st in
  statics_sized (snd r) /\
  aget (s_signal_q16 (snd r)) 2 = to_q16 3 /\
  aget (s_signal_q16 (snd r)) 3 = 77.
Proof.
  intros st r.
  destruct (static_buffers_after_call (Some [1; 2; 3]) 3
              (Some (mkCell (-1) 0)) None st (conj eq_refl eq_refl))
    as (Hsized & _ & Hconv).
  split; [exact Hsized |].
  destruct (Hconv ltac:(vm_compute; discriminate) [1; 2; 3] eq_refl)
    as [Hin Hout].
  split.
  - etransitivity; [apply Hin; lia | reflexivity].
  - etransitivity; [apply Hout; lia | reflexivity].
Defined.

(** ** The buffered entry point *)

Lemma find_prominent_peak_fp_buffered_shape (sig : list Z) (L : Z)
  (out : cell) (user_config : option PeakConfigFP) (sbuf pbuf : list Z) :
  0 < L <= MAX_SIGNAL_LENGTH ->
  let sq := convert_loop (Z.to_nat L) sig L 0 sbuf in
  let r := find_prominent_peak_fp_buffered (Some sig) L (Some out) user_config
             (Some sbuf) (Some pbuf) in
  (L < 3 /\ r = (PEAK_FP_BUFFER_TOO_SMALL, Some out, Some sq, Some pbuf)) \/
  (3 <= L /\
   exists pk, length pk = length pbuf /\
     (r = (PEAK_FP_NO_PEAK_FOUND, Some out, Some sq, Some pk) \/
      exists best, r = (PEAK_FP_OK, Some (store best out), Some sq, Some pk))).
Proof.
  intros HL. cbv zeta. unfold find_prominent_peak_fp_buffered.
  destruct (Z.leb_spec L 0); [lia |].
  destruct (Z.gtb_spec L MAX_SIGNAL_LENGTH); [lia |]. cbn [orb].
  set (sq := convert_loop (Z.to_nat L) sig L 0 sbuf).
  set (config := match user_config with
                 | Some c => c | None => default_config_fp end).
  pose proof (find_peak_candidates_length sq L config pbuf MAX_PEAKS) as Hlen.
  unfold find_peak_candidates in *.
  destruct (Z.ltb_spec L 3) as [Hsmall | Hbig].
  - left. split; [exact Hsmall | reflexivity].
  - right. split; [exact Hbig |].
    destruct (scan_loop _ _ _ _ _ _ _ _ _) as [pk num].
    cbn [fst snd] in Hlen. exists pk. split; [exact Hlen |].
    cbn [PeakResultFP_eqb negb].
    destruct (num =? 0); [left; reflexivity |].
    unfold select_prominent_peak.
    destruct (select_loop _ _ _ _ _ _ _ _ _) as [mp bi].
    destruct (bi >=? 0); [right; exists bi | left]; reflexivity.
Qed.

(** [find_prominent_peak_fp_buffered] returns "invalid input" exactly when
    one of its four pointers is null or the length lies outside
    (0, MAX_SIGNAL_LENGTH], and then touches nothing; otherwise it returns
    "buffer too small" exactly when the length is below 3, and then
    leaves the output location and the candidate buffer as they were. *)
Theorem input_validation_buffered :
  forall (signal : option (list Z)) (length : Z) (peak_index : option cell)
         (user_config : option PeakConfigFP)
         (signal_q16_buffer peaks_buffer : option (list Z)),
    let r := find_prominent_peak_fp_buffered signal length peak_index
               user_config signal_q16_buffer peaks_buffer in
    let code := fst (fst (fst r)) in
    (code = PEAK_FP_INVALID_INPUT <->
     signal = None \/ peak_index = None \/ signal_q16_buffer = None \/
     peaks_buffer = None \/ length <= 0 \/ MAX_SIGNAL_LENGTH < length) /\
    (code = PEAK_FP_INVALID_INPUT ->
     r = (code, peak_index, signal_q16_buffer, peaks_buffer)) /\
    (code <> PEAK_FP_INVALID_INPUT ->
     (code = PEAK_FP_BUFFER_TOO_SMALL <-> length < 3)) /\
    (code = PEAK_FP_BUFFER_TOO_SMALL ->
     snd (fst (fst r)) = peak_index /\ snd r = peaks_buffer).
Proof.
  intros signal L peak_index user_config sb pb r code. subst code r.
  assert (Hnull :
    signal = None \/ peak_index = None \/ sb = None \/ pb = None ->
    find_prominent_peak_fp_buffered signal L peak_index user_config sb pb =
    (PEAK_FP_INVALID_INPUT, peak_index, sb, pb)).
  { intros H. destruct signal, peak_index, sb, pb; try reflexivity.
    exfalso. destruct H as [H | [H | [H | H]]]; discriminate. }
  destruct signal as [sig |]; [| rewrite Hnull by auto; cbn;
    repeat split; intros; auto; try discriminate; exfalso; auto].
  destruct peak_index as [out |]; [| rewrite Hnull by auto; cbn;
    repeat split; intros; auto; try discriminate; exfalso; auto].
  destruct sb as [sbuf |]; [| rewrite Hnull by auto; cbn;
    repeat split; intros; auto 6; try discriminate; exfalso; auto].
  destruct pb as [pbuf |]; [| rewrite Hnull by auto; cbn;
    repeat split; intros; auto 6; try discriminate; exfalso; auto].
  clear Hnull.
  destruct (Z.leb_spec L 0) as [Hle | Hpos];
    [| destruct (Z.ltb_spec MAX_SIGNAL_LENGTH L) as [Hgt | Hle]].
  - unfold find_prominent_peak_fp_buffered.
    destruct (Z.leb_spec L 0); [| lia]. cbn.
    repeat split; intros; auto 8; try discriminate; try lia.
    exfalso; auto.
  - unfold find_prominent_peak_fp_buffered.
    destruct (Z.leb_spec L 0); [lia |].
    destruct (Z.gtb_spec L MAX_SIGNAL_LENGTH); [| lia]. cbn.
    repeat split; intros; auto 8; try discriminate; try lia.
    exfalso; auto.
  - pose proof (find_prominent_peak_fp_buffered_shape sig L out user_config
                  sbuf pbuf (conj Hpos Hle)) as Hshape.
    cbv zeta in Hshape.
    destruct Hshape as [(Hs & E) | (Hb & pk & _ & [E | (b & E)])];
      rewrite E; cbn [fst snd];
      repeat split; intros; try discriminate; auto; try lia;
      match goal with
      | H : _ \/ _ |- _ =>
        destruct H as [H | [H | [H | [H | H]]]]; try discriminate; lia
      end.
Qed.

(** After a call with non-null pointers and a valid length, the caller's
    signal scratch buffer holds the converted samples in its first
    [length] entries and its former content behind them; both scratch
    buffers keep their sizes. *)
Theorem scratch_buffers_after_call :
  forall (sig : list Z) (L : Z) (out : cell)
         (user_config : option PeakConfigFP) (sbuf pbuf : list Z),
    0 < L <= MAX_SIGNAL_LENGTH -> L <= Z.of_nat (length sbuf) ->
    exists sq pk,
      snd (fst (find_prominent_peak_fp_buffered (Some sig) L (Some out)
                  user_config (Some sbuf) (Some pbuf))) = Some sq /\
      snd (find_prominent_peak_fp_buffered (Some sig) L (Some out)
             user_config (Some sbuf) (Some pbuf)) = Some pk /\
      length sq = length sbuf /\ length pk = length pbuf /\
      (forall j, 0 <= j < L -> aget sq j = to_q16 (aget sig j)) /\
      (forall j, L <= j -> aget sq j = aget sbuf j).
Proof.
  intros sig L out user_config sbuf pbuf HL Hs.
  destruct (convert_loop_spec sig L (Z.to_nat L) 0 sbuf)
    as (Elen & Econv & _); try lia.
  pose proof (find_prominent_peak_fp_buffered_shape sig L out user_config
                sbuf pbuf HL) as Hshape.
  cbv zeta in Hshape.
  exists (convert_loop (Z.to_nat L) sig L 0 sbuf).
  destruct Hshape as [(_ & E) | (_ & pk & Hpk & [E | (b & E)])]; rewrite E;
    cbn [fst snd];
    [exists pbuf | exists pk | exists pk];
    (split; [reflexivity |]; split; [reflexivity |]; split; [exact Elen |];
     split; [assumption || reflexivity |]; split;
     [intros j Hj; apply Econv; lia
     | intros j Hj; apply convert_loop_frame; lia]).
Qed.

Lemma scratch_buffers_after_call_witness :
  exists sq pk,
    snd (fst (find_prominent_peak_fp_buffered (Some [1; 2; 3]) 3
                (Some (mkCell (-1) 0)) None (Some (repeat 77 5))
                (Some (repeat 9 32)))) = Some sq /\
    snd (find_prominent_peak_fp_buffered (Some [1; 2; 3]) 3
           (Some (mkCell (-1) 0)) None (Some (repeat 77 5))
           (Some (repeat 9 32))) = Some pk /\
    length sq = 5%nat /\ aget sq 2 = to_q16 3 /\ aget sq 4 = 77.
Proof.
  destruct (scratch_buffers_after_call [1; 2; 3] 3 (mkCell (-1) 0) None
              (repeat 77 5) (repeat 9 32))
    as (sq & pk & E1 & E2 & Hl & _ & Hin & Hout).
  - vm_compute. split; [reflexivity | discriminate].
  - vm_compute. discriminate.
  - exists sq, pk. split; [exact E1 |]. split; [exact E2 |].
    split; [exact Hl |]. split.
    + etransitivity; [apply Hin; lia | reflexivity].
    + etransitivity; [apply Hout; lia | reflexivity].
Defined.

(** ** The diagnostic helper *)

Lemma get_peak_prominence_q16_valid (sig : list Z) (L idx : Z) (st : statics) :
  statics_sized st -> 0 < L <= MAX_SIGNAL_LENGTH -> 0 <= idx < L ->
  let r := get_peak_prominence_q16 sig L idx st in
  fst r = calculate_topological_prominence (map to_q16 sig) L idx /\
  s_peak_candidates (snd r) = s_peak_candidates st /\
  statics_sized (snd r).
Proof.
  intros [Hs Hp] HL Hidx. cbv zeta. unfold get_peak_prominence_q16.
  destruct (Z.leb_spec L 0); [lia |].
  destruct (Z.gtb_spec L MAX_SIGNAL_LENGTH); [lia |].
  destruct (Z.ltb_spec idx 0); [lia |].
  destruct (Z.geb_spec idx L); [lia |]. cbn [orb fst snd s_peak_candidates].
  destruct (convert_loop_agree sig L (s_signal_q16 st)) as [Hlen Hag];
    [lia |].
  split; [apply prominence_agree; assumption |].
  split; [reflexivity |].
  split; cbn [s_signal_q16 s_peak_candidates]; [rewrite Hlen |]; assumption.
Qed.

(** [get_peak_prominence_float] rejects a length outside
    (0, MAX_SIGNAL_LENGTH] or an index outside the signal with the value
    0 and without touching the static buffers; otherwise the value it
    converts is the topological prominence of the converted samples at
    that index, and only the static signal buffer is written. *)
Theorem get_peak_prominence_q16_spec :
  forall (sig : list Z) (L idx : Z) (st : statics),
    statics_sized st ->
    let r := get_peak_prominence_q16 sig L idx st in
    (L <= 0 \/ MAX_SIGNAL_LENGTH < L \/ idx < 0 \/ L <= idx -> r = (0, st)) /\
    (0 < L <= MAX_SIGNAL_LENGTH -> 0 <= idx < L ->
     fst r = calculate_topological_prominence (map to_q16 sig) L idx /\
     s_peak_candidates (snd r) = s_peak_candidates st /\
     statics_sized (snd r)).
Proof.
  intros sig L idx st Hst r. subst r. split.
  - intros H. unfold get_peak_prominence_q16.
    destruct (Z.leb_spec L 0); [reflexivity |].
    destruct (Z.gtb_spec L MAX_SIGNAL_LENGTH); [reflexivity |].
    destruct (Z.ltb_spec idx 0); [reflexivity |].
    destruct (Z.geb_spec idx L); [reflexivity | lia].
  - intros HL Hidx. apply get_peak_prominence_q16_valid; assumption.
Qed.

Lemma get_peak_prominence_q16_spec_witness :
  fst (get_peak_prominence_q16 [0;10;5;20;5;15;0] 7 3 fresh_statics) =
    to_q16 20 /\
  get_peak_prominence_q16 [0;10;5;20;5;15;0] 7 7 fresh_statics =
    (0, fresh_statics).
Proof.
  destruct (get_peak_prominence_q16_spec [0;10;5;20;5;15;0] 7 3 fresh_statics
              (conj eq_refl eq_refl)) as [_ Hvalid].
  destruct (get_peak_prominence_q16_spec [0;10;5;20;5;15;0] 7 7 fresh_statics
              (conj eq_refl eq_refl)) as [Hinv _].
  split.
  - etransitivity.
    + apply Hvalid; [vm_compute; split; [reflexivity | discriminate] | lia].
    + vm_compute. reflexivity.
  - apply Hinv. lia.
Defined.

Section WholeUnits.

Variable s : list Z.
Variable L : Z.
Variable P : Z -> Prop.
Hypothesis Hsamples : forall j, 0 <= j < L -> P (aget s j).

Lemma walk_left_pred (peak : Z) (fuel : nat) : forall i m,
  i < L -> P m -> P (walk_left fuel s peak i m).
Proof.
  induction fuel as [| fuel IH]; intros i m Hi Hm; cbn [walk_left];
    [exact Hm |].
  destruct (Z.geb_spec i 0); [| exact Hm].
  destruct (aget s i >=? peak); [exact Hm |].
  apply IH; [lia |].
  destruct (aget s i <? m); [apply Hsamples; lia | exact Hm].
Qed.

Lemma walk_right_pred (peak : Z) (fuel : nat) : forall i m,
  0 <= i -> P m -> P (walk_right fuel s L peak i m).
Proof.
  induction fuel as [| fuel IH]; intros i m Hi Hm; cbn [walk_right];
    [exact Hm |].
  destruct (Z.ltb_spec i L); [| exact Hm].
  destruct (aget s i >=? peak); [exact Hm |].
  apply IH; [lia |].
  destruct (aget s i <? m); [apply Hsamples; lia | exact Hm].
Qed.

End WholeUnits.

Lemma wrap32_divide (z : Z) : (65536 | z) -> (65536 | wrap32 z).
Proof.
  intros Hz. unfold wrap32, wrap.
  change (2 ^ (32 - 1)) with 2147483648. change (2 ^ 32) with 4294967296.
  rewrite Z.mod_eq by lia.
  replace (z + 2147483648 -
           4294967296 * ((z + 2147483648) / 4294967296) - 2147483648)
    with (z - ((z + 2147483648) / 4294967296) * 65536 * 65536) by lia.
  apply Z.divide_sub_r; [exact Hz |]. apply Z.divide_factor_r.
Qed.

Lemma prominence_whole_units (s : list Z) (L idx : Z) :
  (forall j, 0 <= j < L -> (65536 | aget s j)) -> 0 <= idx < L ->
  (65536 | calculate_topological_prominence s L idx).
Proof.
  intros Hs Hidx. unfold calculate_topological_prominence.
  set (peak := aget s idx).
  assert (Hpk : (65536 | peak)) by (apply Hs; lia).
  apply wrap32_divide, Z.divide_sub_r; [exact Hpk |].
  destruct (_ >? _).
  - apply (walk_left_pred s L (fun v => (65536 | v)) Hs); [lia | exact Hpk].
  - apply (walk_right_pred s L (fun v => (65536 | v)) Hs); [lia | exact Hpk].
Qed.

(** For int16_t samples the value that [get_peak_prominence_float]
    converts is always a whole number of signal units: k * 2^16 with k
    in the int16_t range. *)
Theorem get_peak_prominence_whole_units :
  forall (sig : list Z) (L idx : Z) (st : statics),
    statics_sized st -> Forall is_int16 sig ->
    exists k, is_int16 k /\
      fst (get_peak_prominence_q16 sig L idx st) = k * 65536.
Proof.
  intros sig L idx st Hst H16.
  destruct (Z.le_gt_cases L 0) as [H | HL0];
    [| destruct (Z.lt_ge_cases MAX_SIGNAL_LENGTH L) as [H | HLm];
       [| destruct (Z.lt_ge_cases idx 0) as [H | Hi0];
          [| destruct (Z.le_gt_cases L idx) as [H | HiL]]]];
    try (exists 0; split; [apply is_int16_0 |];
         unfold get_peak_prominence_q16;
         destruct (Z.leb_spec L 0); [reflexivity |];
         destruct (Z.gtb_spec L MAX_SIGNAL_LENGTH); [reflexivity |];
         destruct (Z.ltb_spec idx 0); [reflexivity |];
         destruct (Z.geb_spec idx L); [reflexivity | lia]).
  destruct (get_peak_prominence_q16_valid sig L idx st Hst) as (E & _);
    [lia | lia |].
  rewrite E.
  assert (Hdiv : (65536 | calculate_topological_prominence (map to_q16 sig)
                             L idx)).
  { apply prominence_whole_units; [| lia]. intros j _.
    rewrite aget_map_to_q16, to_q16_exact by (apply aget_int16, H16).
    apply Z.divide_factor_r. }
  destruct Hdiv as [k Hk]. exists k. split; [| exact Hk].
  pose proof (prominence_int32 (map to_q16 sig) L idx) as Hr.
  rewrite Hk in Hr.
  unfold is_int32, is_int16, INT32_MIN, INT32_MAX, INT16_MIN, INT16_MAX in *.
  lia.
Qed.

Lemma get_peak_prominence_whole_units_witness :
  exists k, is_int16 k /\
    fst (get_peak_prominence_q16 [-20000; 20000; -20000] 3 1 fresh_statics) =
    k * 65536.
Proof.
  apply (get_peak_prominence_whole_units [-20000; 20000; -20000] 3 1
           fresh_statics).
  - split; reflexivity.
  - repeat constructor; vm_compute; discriminate.
Defined.

(** After [find_prominent_peak_fp] has succeeded with index i, the helper
    called on the same signal and that index (on the static buffers the
    first call left behind) yields the prominence that selection used: it
    meets the configured threshold. *)
Theorem reported_peak_prominence_meets_threshold :
  forall (sig : list Z) (user_config : option PeakConfigFP) (st : statics)
         (out : cell) (i : Z),
    statics_sized st ->
    let L := Z.of_nat (length sig) in
    let r := find_prominent_peak_fp (Some sig) L (Some out) user_config st in
    outcome_fp r = (PEAK_FP_OK, Some (store i out)) ->
    fst (get_peak_prominence_q16 sig L i (snd r)) =
      calculate_topological_prominence (map to_q16 sig) L i /\
    prominence_threshold_q16 (effective_config user_config) <=
      fst (get_peak_prominence_q16 sig L i (snd r)).
Proof.
  intros sig user_config st out i Hst L r Hok. subst r.
  destruct (success_detect sig L out user_config st i Hst Hok) as [HL Hd].
  destruct (statics_after_call (Some sig) L (Some out) user_config st Hst)
    as (Hsized & _).
  set (sq := map to_q16 sig) in *.
  set (config := effective_config user_config) in *.
  destruct (detect_cases sq L config) as [(k & Hk & _ & E) | [_ E]];
    rewrite E in Hd; [| discriminate].
  injection Hd as Hi. destruct Hk as (Hlen & Hkt & _). rewrite Hi in *.
  assert (Hrange : 1 <= i <= L - 2).
  { apply (expected_candidates_range sq L config MAX_PEAKS).
    rewrite <- Hi. apply nth_In, Hlen. }
  destruct (get_peak_prominence_q16_valid sig L i _ Hsized) as (Eg & _);
    [lia | lia |].
  rewrite Eg. split; [reflexivity | exact Hkt].
Qed.

Lemma reported_peak_prominence_meets_threshold_witness :
  let sig := [0;10;5;20;5;15;0] in
  let r := find_prominent_peak_fp (Some sig) 7 (Some (mkCell (-1) 0)) None
             fresh_statics in
  PROMINENCE_THRESHOLD_Q16 <= fst (get_peak_prominence_q16 sig 7 3 (snd r)).
Proof.
  intros sig r.
  refine (proj2 (reported_peak_prominence_meets_threshold sig None
                   fresh_statics (mkCell (-1) 0) 3 (conj eq_refl eq_refl) _)).
  vm_compute. reflexivity.
Defined.

(** ** Candidate detection at its limits *)

Lemma scan_loop_no_capacity (s : list Z) (L : Z) (config : PeakConfigFP)
  (max_peaks : Z) (fuel : nat) : forall i g pk,
  max_peaks <= 0 ->
  scan_loop fuel s L config max_peaks i g pk 0 = (pk, 0).
Proof.
  induction fuel as [| fuel IH]; intros i g pk Hm; cbn [scan_loop];
    [reflexivity |].
  destruct (i <? L - 1); [| reflexivity].
  destruct (peak_conditions _ _ _ _ _); [| apply IH, Hm].
  destruct (Z.ltb_spec 0 max_peaks); [lia | reflexivity].
Qed.

(** [find_peak_candidates] reports "buffer too small" with a count of 0
    for every length below 3, and success with a count of 0 when the
    capacity is zero or negative; in both cases the candidate buffer is
    returned exactly as it was passed. *)
Theorem find_peak_candidates_limits :
  forall (signal_q16 : list Z) (L : Z) (config : PeakConfigFP)
         (peak_indices : list Z) (max_peaks : Z),
    (L < 3 ->
     find_peak_candidates signal_q16 L config peak_indices max_peaks =
       (PEAK_FP_BUFFER_TOO_SMALL, peak_indices, 0)) /\
    (3 <= L -> max_peaks <= 0 ->
     find_peak_candidates signal_q16 L config peak_indices max_peaks =
       (PEAK_FP_OK, peak_indices, 0)).
Proof.
  intros s L config pk max_peaks. unfold find_peak_candidates. split.
  - intros HL. destruct (Z.ltb_spec L 3); [reflexivity | lia].
  - intros HL Hm. destruct (Z.ltb_spec L 3); [lia |].
    rewrite scan_loop_no_capacity by exact Hm. reflexivity.
Qed.

(** ** A single clean peak is always found *)

Lemma chain_lt (f : Z -> Z) (a b : Z) :
  (forall j, a <= j < b -> f j < f (j + 1)) ->
  forall x y, a <= x -> x < y -> y <= b -> f x < f y.
Proof.
  intros Hstep x y Hx Hxy Hy.
  replace y with (x + Z.of_nat (S (Z.to_nat (y - x - 1)))) by lia.
  assert (Hb : x + Z.of_nat (S (Z.to_nat (y - x - 1))) <= b) by lia.
  revert Hb. generalize (Z.to_nat (y - x - 1)) as n.
  induction n as [| n IH]; intros Hb.
  - apply Hstep. lia.
  - eapply Z.lt_trans; [apply IH; lia |].
    replace (x + Z.of_nat (S (S n))) with (x + Z.of_nat (S n) + 1) by lia.
    apply Hstep. lia.
Qed.

Lemma chain_gt (f : Z -> Z) (a b : Z) :
  (forall j, a <= j < b -> f (j + 1) < f j) ->
  forall x y, a <= x -> x < y -> y <= b -> f y < f x.
Proof.
  intros Hstep x y Hx Hxy Hy.
  pose proof (chain_lt (fun j => - f j) a b) as H. cbv beta in H.
  specialize (H ltac:(intros j Hj; specialize (Hstep j Hj); lia) x y Hx Hxy Hy).
  lia.
Qed.

Lemma walk_left_reaches (s : list Z) (peak : Z) (fuel : nat) : forall i m0,
  (forall j, 0 <= j <= i -> aget s j < peak) -> i < Z.of_nat fuel ->
  forall j, 0 <= j <= i -> walk_left fuel s peak i m0 <= aget s j.
Proof.
  induction fuel as [| fuel IH]; intros i m0 Hbelow Hfuel j Hj; [lia |].
  cbn [walk_left]. destruct (Z.geb_spec i 0); [| lia].
  destruct (Z.geb_spec (aget s i) peak) as [Hge | _];
    [specialize (Hbelow i ltac:(lia)); lia |].
  destruct (Z.eq_dec j i) as [-> | Hne].
  - eapply Z.le_trans; [apply walk_left_le |].
    destruct (Z.ltb_spec (aget s i) m0); lia.
  - apply IH; [intros; apply Hbelow; lia | lia | lia].
Qed.

Lemma walk_right_reaches (s : list Z) (L peak : Z) (fuel : nat) : forall i m0,
  (forall j, i <= j < L -> aget s j < peak) -> L - i <= Z.of_nat fuel ->
  forall j, i <= j < L -> walk_right fuel s L peak i m0 <= aget s j.
Proof.
  induction fuel as [| fuel IH]; intros i m0 Hbelow Hfuel j Hj; [lia |].
  cbn [walk_right]. destruct (Z.ltb_spec i L); [| lia].
  destruct (Z.geb_spec (aget s i) peak) as [Hge | _];
    [specialize (Hbelow i ltac:(lia)); lia |].
  destruct (Z.eq_dec j i) as [-> | Hne].
  - eapply Z.le_trans; [apply walk_right_le |].
    destruct (Z.ltb_spec (aget s i) m0); lia.
  - apply IH; [intros; apply Hbelow; lia | lia | lia].
Qed.

Lemma filter_zrange_first (f : Z -> bool) (m : Z) (n : nat) : forall a,
  a <= m < a + Z.of_nat n ->
  (forall i, a <= i < m -> f i = false) -> f m = true ->
  exists rest, filter f (zrange a n) = m :: rest /\
               forall c, In c rest -> m < c < a + Z.of_nat n.
Proof.
  induction n as [| n IH]; intros a Ham Hfalse Htrue; [lia |].
  cbn [zrange filter]. destruct (Z.eq_dec a m) as [-> | Hne].
  - rewrite Htrue. eexists. split; [reflexivity |].
    intros c Hc. apply filter_In in Hc as [Hc _]. apply zrange_In in Hc. lia.
  - rewrite (Hfalse a) by lia.
    destruct (IH (a + 1)) as (rest & E & Hrest);
      [lia | intros; apply Hfalse; lia | exact Htrue |].
    exists rest. split; [exact E |]. intros c Hc.
    specialize (Hrest c Hc). lia.
Qed.

Lemma select_fold_unchanged (prom : Z -> Z) (t : Z) (l : list Z) : forall st,
  (forall c, In c l -> prom c < t) ->
  fold_left (select_step prom t) l st = st.
Proof.
  induction l as [| c l IH]; intros st Hl; [reflexivity |].
  cbn [fold_left]. unfold select_step at 2.
  destruct (Z.geb_spec (prom c) t) as [Hge | _];
    [specialize (Hl c (or_introl eq_refl)); lia |].
  cbn [andb]. apply IH. intros; apply Hl; right; assumption.
Qed.

Section SinglePeak.

Variable sig : list Z.
Variable m : Z.
Variable config : PeakConfigFP.

Let L := Z.of_nat (length sig).
Let sq := map to_q16 sig.
Let lo := Z.min (aget sig 0) (aget sig (L - 1)).

Hypothesis H16 : Forall is_int16 sig.
Hypothesis Hm : 1 <= m <= L - 2.
Hypothesis Hup : forall j, 0 <= j < m -> aget sig j < aget sig (j + 1).
Hypothesis Hdown : forall j, m <= j < L - 1 -> aget sig (j + 1) < aget sig j.
Hypothesis Hspan : aget sig m - lo <= 32767.

Lemma single_peak_below (j : Z) :
  0 <= j < L -> j <> m -> aget sig j < aget sig m.
Proof.
  intros Hj Hne. destruct (Z.lt_ge_cases j m).
  - apply (chain_lt (aget sig) 0 m Hup); lia.
  - apply (chain_gt (aget sig) m (L - 1) Hdown); lia.
Qed.

Lemma single_peak_bounds (j : Z) :
  0 <= j < L -> lo <= aget sig j <= aget sig m.
Proof.
  intros Hj. split.
  - subst lo. destruct (Z.lt_ge_cases j m).
    + destruct (Z.eq_dec j 0) as [-> | Hne]; [lia |].
      pose proof (chain_lt (aget sig) 0 m Hup 0 j). lia.
    + destruct (Z.eq_dec j (L - 1)) as [-> | Hne]; [lia |].
      pose proof (chain_gt (aget sig) m (L - 1) Hdown j (L - 1)). lia.
  - destruct (Z.eq_dec j m) as [-> | Hne]; [lia |].
    pose proof (single_peak_below j Hj Hne). lia.
Qed.

Lemma single_peak_window :
  Forall (fun x => lo <= x <= aget sig m) sig.
Proof.
  apply Forall_forall. intros x Hx.
  destruct (In_nth _ _ 0 Hx) as (n & Hn & <-).
  rewrite <- aget_nth. apply single_peak_bounds. subst L. lia.
Qed.

Lemma single_peak_sq (j : Z) : aget sq j = aget sig j * 65536.
Proof.
  subst sq. rewrite aget_map_to_q16. apply to_q16_exact, aget_int16, H16.
Qed.

Lemma single_peak_lo_int16 : is_int16 lo.
Proof.
  subst lo. destruct (Z.min_spec (aget sig 0) (aget sig (L - 1)))
    as [[_ ->] | [_ ->]]; apply aget_int16, H16.
Qed.

Lemma single_peak_gradient (i : Z) :
  0 <= i < L ->
  (i = 0 -> gradient sq L i = (aget sig 1 - aget sig 0) * 65536) /\
  (0 < i < L - 1 ->
   gradient sq L i = (aget sig (i + 1) - aget sig (i - 1)) * 32768).
Proof.
  intros Hi. rewrite <- compute_gradient_at_spec.
  destruct (gradient_converted sig lo (aget sig m) L i) as (H0 & _ & Hint);
    auto using single_peak_lo_int16, aget_int16, single_peak_window.
  subst L. lia.
Qed.

Lemma single_peak_not_before (i : Z) :
  1 <= i < m -> is_candidate sq L config i = false.
Proof.
  intros Hi. unfold is_candidate, zero_crossing, local_maximum.
  destruct (single_peak_gradient i ltac:(lia)) as [_ Hg].
  rewrite Hg by lia. rewrite !single_peak_sq.
  pose proof (Hup (i - 1) ltac:(lia)) as H1.
  pose proof (Hup i ltac:(lia)) as H2.
  replace (i - 1 + 1) with i in H1 by lia.
  destruct (Z.leb_spec ((aget sig (i + 1) - aget sig (i - 1)) * 32768) 0);
    [lia |].
  destruct (Z.ltb_spec (aget sig (i + 1) * 65536) (aget sig i * 65536));
    [lia |].
  rewrite !andb_false_r. reflexivity.
Qed.

Lemma single_peak_candidate :
  noise_floor_q16 config < to_q16 (aget sig m) ->
  gradient_threshold_q16 config <= 32768 ->
  is_candidate sq L config m = true.
Proof.
  intros Hnoise Hgthr. unfold is_candidate, zero_crossing, local_maximum.
  rewrite to_q16_exact in Hnoise by (apply aget_int16, H16).
  rewrite !single_peak_sq.
  pose proof (Hup (m - 1) ltac:(lia)) as H1.
  replace (m - 1 + 1) with m in H1 by lia.
  pose proof (Hdown m ltac:(lia)) as H2.
  pose proof (single_peak_bounds (m - 1) ltac:(lia)) as Hb.
  assert (Hg : 32768 <= gradient sq L (m - 1) <= 32767 * 65536).
  { destruct (single_peak_gradient (m - 1) ltac:(lia)) as [H0 Hint].
    destruct (Z.eq_dec (m - 1) 0) as [E | Hne].
    - rewrite H0 by exact E.
      pose proof (Hup 0 ltac:(lia)) as H3. change (0 + 1) with 1 in H3.
      pose proof (single_peak_bounds 0 ltac:(lia)).
      pose proof (single_peak_bounds 1 ltac:(lia)). lia.
    - rewrite Hint by lia. replace (m - 1 + 1) with m by lia.
      pose proof (Hup (m - 2) ltac:(lia)) as H3.
      replace (m - 2 + 1) with (m - 1) in H3 by lia.
      replace (m - 1 - 1) with (m - 2) by lia.
      pose proof (single_peak_bounds (m - 2) ltac:(lia)). lia. }
  assert (Habs : abs32 (gradient sq L (m - 1)) = gradient sq L (m - 1)).
  { unfold abs32. rewrite Z.abs_eq by lia. apply wrap32_id.
    unfold is_int32, INT32_MIN, INT32_MAX. lia. }
  rewrite Habs.
  destruct (Z.ltb_spec (aget sig (m - 1) * 65536) (aget sig m * 65536));
    [| lia].
  destruct (Z.ltb_spec (aget sig (m + 1) * 65536) (aget sig m * 65536));
    [| lia].
  destruct (Z.ltb_spec (noise_floor_q16 config) (aget sig m * 65536));
    [| lia].
  destruct (Z.leb_spec (gradient_threshold_q16 config)
              (gradient sq L (m - 1))); [| lia].
  rewrite orb_true_r. reflexivity.
Qed.

Lemma single_peak_after_zero (c : Z) :
  m < c <= L - 2 -> calculate_topological_prominence sq L c = 0.
Proof.
  intros Hc. apply prominence_blocked; [lia |]. right. left.
  rewrite !single_peak_sq.
  pose proof (Hdown (c - 1) ltac:(lia)) as H.
  replace (c - 1 + 1) with c in H by lia. lia.
Qed.

Lemma single_peak_prominence :
  (aget sig m - Z.max (aget sig 0) (aget sig (L - 1))) * 65536
    <= calculate_topological_prominence sq L m <= 32767 * 65536.
Proof.
  unfold calculate_topological_prominence.
  set (peak := aget sq m).
  set (lm := walk_left _ _ _ _ _). set (rm := walk_right _ _ _ _ _ _).
  assert (Hpk : peak = aget sig m * 65536) by apply single_peak_sq.
  assert (Hbelow : forall j, 0 <= j < L -> j <> m -> aget sq j < peak).
  { intros j Hj Hne. rewrite single_peak_sq, Hpk.
    pose proof (single_peak_below j Hj Hne). lia. }
  assert (Hlow : forall j, 0 <= j < L -> lo * 65536 <= aget sq j).
  { intros j Hj. rewrite single_peak_sq.
    pose proof (single_peak_bounds j Hj). lia. }
  assert (Hpl : lo * 65536 <= peak).
  { rewrite Hpk. pose proof (single_peak_bounds m ltac:(lia)). lia. }
  assert (Hl0 : lm <= aget sq 0).
  { apply walk_left_reaches; [intros; apply Hbelow; lia | lia | lia]. }
  assert (Hr0 : rm <= aget sq (L - 1)).
  { apply walk_right_reaches; [intros; apply Hbelow; lia | lia | lia]. }
  assert (Hl1 : lo * 65536 <= lm).
  { apply (walk_left_pred sq L (fun v => lo * 65536 <= v) Hlow);
      [lia | exact Hpl]. }
  assert (Hr1 : lo * 65536 <= rm).
  { apply (walk_right_pred sq L (fun v => lo * 65536 <= v) Hlow);
      [lia | exact Hpl]. }
  rewrite !single_peak_sq in Hl0, Hr0.
  pose proof (single_peak_bounds 0 ltac:(lia)) as Hb0.
  pose proof (single_peak_bounds (L - 1) ltac:(lia)) as Hb1.
  rewrite select_max, sub32_exact;
    unfold is_int32, INT32_MIN, INT32_MAX; lia.
Qed.

Lemma single_peak_detect :
  noise_floor_q16 config < to_q16 (aget sig m) ->
  gradient_threshold_q16 config <= 32768 ->
  0 < prominence_threshold_q16 config
    <= (aget sig m - Z.max (aget sig 0) (aget sig (L - 1))) * 65536 ->
  detect sq L config = Some m.
Proof.
  intros Hnoise Hgthr Ht.
  destruct (filter_zrange_first (is_candidate sq L config) m
              (Z.to_nat (L - 2)) 1)
    as (rest & E & Hrest);
    [lia | intros; apply single_peak_not_before; lia
    | apply single_peak_candidate; assumption |].
  pose proof single_peak_prominence as Hprom.
  assert (Hfold :
    fold_left
      (select_step (calculate_topological_prominence sq L)
                   (prominence_threshold_q16 config))
      (firstn (Z.to_nat MAX_PEAKS) (m :: rest)) (INT32_MIN, -1) =
    (calculate_topological_prominence sq L m, m)).
  { change (firstn (Z.to_nat MAX_PEAKS) (m :: rest))
      with (m :: firstn 31 rest).
    cbn [fold_left]. rewrite select_step_eq.
    destruct (Z.leb_spec (prominence_threshold_q16 config)
                (calculate_topological_prominence sq L m)); [| lia].
    destruct (Z.ltb_spec INT32_MIN (calculate_topological_prominence sq L m));
      [| unfold INT32_MIN in *; lia].
    cbn [andb]. apply select_fold_unchanged.
    intros c Hc. apply In_firstn in Hc. specialize (Hrest c Hc).
    rewrite single_peak_after_zero by lia. lia. }
  unfold detect, expected_candidates, all_candidates, interior_indices.
  rewrite E, Hfold. cbn [snd].
  destruct (Z.geb_spec m 0); [reflexivity | lia].
Qed.

End SinglePeak.

(** A single clean peak is always found: for int16_t samples that rise
    strictly up to an interior index m and fall strictly after it, span
    at most 32767 units, with the sample at m above the noise floor, a
    gradient threshold of at most half a unit and a positive prominence
    threshold not above the height of the peak over the higher of the two
    end samples, [find_prominent_peak_fp] succeeds with index m. *)
Theorem single_peak_is_found :
  forall (sig : list Z) (m : Z) (user_config : option PeakConfigFP)
         (st : statics) (out : cell),
    statics_sized st -> Forall is_int16 sig ->
    let L := Z.of_nat (length sig) in
    let config := effective_config user_config in
    L <= MAX_SIGNAL_LENGTH -> 1 <= m <= L - 2 ->
    (forall j, 0 <= j < m -> aget sig j < aget sig (j + 1)) ->
    (forall j, m <= j < L - 1 -> aget sig (j + 1) < aget sig j) ->
    aget sig m - Z.min (aget sig 0) (aget sig (L - 1)) <= 32767 ->
    noise_floor_q16 config < to_q16 (aget sig m) ->
    gradient_threshold_q16 config <= 32768 ->
    0 < prominence_threshold_q16 config
      <= (aget sig m - Z.max (aget sig 0) (aget sig (L - 1))) * 65536 ->
    outcome_fp (find_prominent_peak_fp (Some sig) L (Some out) user_config st)
      = (PEAK_FP_OK, Some (store m out)).
Proof.
  intros sig m user_config st out Hst H16 L config HL Hm Hup Hdown Hspan
    Hnoise Hgthr Ht.
  subst L config.
  rewrite find_prominent_peak_fp_detect by (auto; lia).
  rewrite (single_peak_detect sig m (effective_config user_config)); auto.
Qed.

Lemma single_peak_is_found_witness :
  outcome_fp (find_prominent_peak_fp (Some [10; 15; 20; 25; 20; 15; 10]) 7
                (Some (mkCell (-1) 0)) None fresh_statics)
  = (PEAK_FP_OK, Some (mkCell 3 1)).
Proof.
  refine (single_peak_is_found [10; 15; 20; 25; 20; 15; 10] 3 None
            fresh_statics (mkCell (-1) 0) _ _ _ _ _ _ _ _ _ _).
  - split; reflexivity.
  - repeat constructor; vm_compute; discriminate.
  - vm_compute. discriminate.
  - cbn. lia.
  - intros j Hj.
    assert (Hc : j = 0 \/ j = 1 \/ j = 2) by lia.
    destruct Hc as [-> | [-> | ->]]; reflexivity.
  - intros j Hj. cbn in Hj.
    assert (Hc : j = 3 \/ j = 4 \/ j = 5) by lia.
    destruct Hc as [-> | [-> | ->]]; reflexivity.
  - vm_compute. discriminate.
  - vm_compute. reflexivity.
  - vm_compute. discriminate.
  - vm_compute. split; [reflexivity | discriminate].
Defined.

(** ** The prominence beyond the 32-bit range *)

(** Whenever a peak stands more than INT32_MAX above its reference level
    (32768 signal units or more), the value returned is the true
    difference less 2^32, hence negative. *)
Theorem prominence_wraps_negative :
  forall (signal_q16 : list Z) (p : nat),
    (p < length signal_q16)%nat -> Forall is_int32 signal_q16 ->
    INT32_MAX < nth p signal_q16 0 - reference_level signal_q16 p ->
    let prominence :=
      calculate_topological_prominence signal_q16
        (Z.of_nat (length signal_q16)) (Z.of_nat p) in
    prominence =
      nth p signal_q16 0 - reference_level signal_q16 p - 4294967296 /\
    prominence < 0.
Proof.
  intros s p Hp Hall Hbig prominence. subst prominence.
  rewrite prominence_unfold by exact Hp.
  assert (Hlow : INT32_MIN <= reference_level s p).
  { apply reference_level_lower_bound; [exact Hp |].
    eapply Forall_impl; [| exact Hall]. intros v [Hv _]. exact Hv. }
  assert (Hpk : nth p s 0 <= INT32_MAX).
  { rewrite Forall_forall in Hall. apply (Hall _ (nth_In s 0 Hp)). }
  unfold sub32, wrap32, wrap, INT32_MIN, INT32_MAX in *.
  change (2 ^ (32 - 1)) with 2147483648. change (2 ^ 32) with 4294967296.
  replace (nth p s 0 - reference_level s p + 2147483648)
    with (nth p s 0 - reference_level s p - 2147483648 + 1 * 4294967296)
    by lia.
  rewrite Z.mod_add by lia. rewrite Z.mod_small by lia. lia.
Qed.

Lemma prominence_wraps_negative_witness :
  calculate_topological_prominence (map to_q16 [-20000; 20000; -20000]) 3 1
  < 0.
Proof.
  refine (proj2 (prominence_wraps_negative
                   (map to_q16 [-20000; 20000; -20000]) 1 _ _ _)).
  - vm_compute. lia.
  - repeat constructor; vm_compute; discriminate.
  - vm_compute. reflexivity.
Defined.

(** ** Candidate detection and the exact rule *)

Section ExactRule.

Variable signal : list Z.
Variables lo hi : Z.

Let L := Z.of_nat (length signal).

Hypothesis Hwindow : Forall (fun v => lo <= v <= hi) signal.
Hypothesis Hspan : hi - lo <= INT32_MAX.

Lemma window_sub32 (j k : Z) :
  0 <= j < L -> 0 <= k < L ->
  sub32 (aget signal j) (aget signal k) = aget signal j - aget signal k /\
  - INT32_MAX <= aget signal j - aget signal k <= INT32_MAX.
Proof.
  intros Hj Hk.
  pose proof (aget_Forall _ signal j Hwindow Hj) as Bj.
  pose proof (aget_Forall _ signal k Hwindow Hk) as Bk. cbv beta in Bj, Bk.
  unfold INT32_MAX in *.
  split; [| lia]. apply sub32_exact.
  unfold is_int32, INT32_MIN, INT32_MAX. lia.
Qed.

Lemma window_gradient (i : Z) :
  2 <= L -> 0 <= i < L ->
  gradient signal L i = exact_gradient signal L i /\
  - INT32_MAX <= exact_gradient signal L i <= INT32_MAX.
Proof.
  intros HL Hi. unfold gradient, exact_gradient.
  destruct (Z.eqb_spec i 0); [apply window_sub32; lia |].
  destruct (Z.eqb_spec i (L - 1)); [apply window_sub32; lia |].
  destruct (window_sub32 (i + 1) (i - 1)) as [-> Hb]; [lia | lia |].
  split; [reflexivity |]. unfold INT32_MAX in *. split.
  - apply Z.div_le_lower_bound; lia.
  - apply Z.div_le_upper_bound; lia.
Qed.

Lemma window_is_candidate (config : PeakConfigFP) (i : Z) :
  1 <= i <= L - 2 ->
  is_candidate signal L config i = is_candidate_exact signal L config i.
Proof.
  intros Hi. unfold is_candidate, is_candidate_exact, zero_crossing.
  destruct (window_gradient (i - 1)) as [-> Hb]; [lia | lia |].
  destruct (window_gradient i) as [-> _]; [lia | lia |].
  assert (Habs : abs32 (exact_gradient signal L (i - 1)) =
                 Z.abs (exact_gradient signal L (i - 1))).
  { unfold abs32. apply wrap32_id.
    unfold is_int32, INT32_MIN, INT32_MAX in *. lia. }
  rewrite Habs. reflexivity.
Qed.

Lemma window_expected_candidates (config : PeakConfigFP) (max_peaks : Z) :
  expected_candidates signal L config max_peaks =
  exact_candidates signal L config max_peaks.
Proof.
  unfold expected_candidates, exact_candidates, all_candidates. f_equal.
  apply filter_ext_in. intros i Hi. unfold interior_indices in Hi.
  apply zrange_In in Hi. apply window_is_candidate. lia.
Qed.

End ExactRule.

(** On a signal of length L >= 3 whose samples span at most INT32_MAX in
    Q16.16 (int16_t samples within 32767 units of one another), no
    difference and no negation wraps, and the scan leaves in the
    candidate buffer exactly the first min(max_peaks, total) indices of
    1 .. L-2, ascending, that satisfy the rule with exact differences:
    (previous gradient > 0 and current gradient <= 0, or strictly above
    both neighbours) and above the noise floor and
    |previous gradient| >= threshold. *)
Theorem find_peak_candidates_exact_in_window :
  forall (signal : list Z) (lo hi L : Z) (config : PeakConfigFP)
         (peak_indices : list Z) (max_peaks : Z),
    3 <= L -> L = Z.of_nat (length signal) ->
    Forall (fun v => lo <= v <= hi) signal -> hi - lo <= INT32_MAX ->
    0 <= max_peaks <= Z.of_nat (length peak_indices) ->
    exists pk num,
      find_peak_candidates signal L config peak_indices max_peaks =
        (PEAK_FP_OK, pk, num) /\
      num = Z.min max_peaks
              (Z.of_nat (length (filter (is_candidate_exact signal L config)
                                        (interior_indices L)))) /\
      firstn (Z.to_nat num) pk =
        firstn (Z.to_nat max_peaks)
          (filter (is_candidate_exact signal L config) (interior_indices L)) /\
      skipn (Z.to_nat num) pk = skipn (Z.to_nat num) peak_indices /\
      (forall i, 0 <= i < L ->
         compute_gradient_at signal L i = exact_gradient signal L i).
Proof.
  intros signal lo hi L config peak_indices max_peaks HL -> Hwin Hspan Hcap.
  destruct (find_peak_candidates_scan signal _ config peak_indices max_peaks
              HL Hcap) as (pk & num & E & En & Ef & Es & _).
  rewrite (window_expected_candidates signal lo hi Hwin Hspan) in En, Ef.
  exists pk, num. split; [exact E |]. split.
  { rewrite En. unfold exact_candidates. rewrite length_firstn. lia. }
  split; [exact Ef |]. split; [exact Es |].
  intros i Hi. rewrite compute_gradient_at_spec.
  apply (window_gradient signal lo hi Hwin Hspan); lia.
Qed.

Lemma find_peak_candidates_exact_in_window_witness :
  let signal := map to_q16 [10;40;70;80;60;40;70;100;50;20] in
  exists pk,
    find_peak_candidates signal 10 default_config_fp (zeros 32) MAX_PEAKS =
      (PEAK_FP_OK, pk, 2) /\
    firstn 2 pk = [3; 7].
Proof.
  intros signal.
  destruct (find_peak_candidates_exact_in_window signal (to_q16 10)
              (to_q16 100) 10 default_config_fp (zeros 32) MAX_PEAKS)
    as (pk & num & E & En & Ef & _).
  - lia.
  - reflexivity.
  - repeat constructor; vm_compute; discriminate.
  - vm_compute. discriminate.
  - vm_compute. split; discriminate.
  - exists pk.
    assert (Hn : num = 2) by (rewrite En; vm_compute; reflexivity).
    clear En. subst num. split; [exact E |].
    change (Z.to_nat 2) with 2%nat in Ef. rewrite Ef. vm_compute. reflexivity.
Defined.

(** C4: on the int16_t samples [-32757, 11, 0] with the default
    configuration, index 1 satisfies the rule (a strict local maximum,
    above the noise floor, previous gradient 32768 units), but the forward
    difference at index 0 wraps to INT32_MIN and so does its negation, the
    magnitude test fails, and the scan finds no candidate: the 11-unit
    peak is reported as "no peak found".  On [-20000, 20000, 20000, 20000]
    the wrapped central difference at index 1 is negative and the
    zero-crossing at index 2 is missed. *)
Theorem find_peak_candidates_misses_wrapped_gradient :
  let sq := map to_q16 [-32757; 11; 0] in
  let sq' := map to_q16 [-20000; 20000; 20000; 20000] in
  exact_gradient sq 3 0 = 32768 * 65536 /\
  compute_gradient_at sq 3 0 = INT32_MIN /\
  exact_candidates sq 3 default_config_fp MAX_PEAKS = [1] /\
  find_peak_candidates sq 3 default_config_fp (zeros 32) MAX_PEAKS =
    (PEAK_FP_OK, zeros 32, 0) /\
  calculate_topological_prominence sq 3 1 = to_q16 11 /\
  run [-32757; 11; 0] None = (PEAK_FP_NO_PEAK_FOUND, -1) /\
  exact_candidates sq' 4 default_config_fp MAX_PEAKS = [2] /\
  find_peak_candidates sq' 4 default_config_fp (zeros 32) MAX_PEAKS =
    (PEAK_FP_OK, zeros 32, 0).
Proof. repeat split; vm_compute; reflexivity. Qed.
